(** * Shallow embedding of the RedwoodJS builder ([packages/redwood/src/index.ts])

    The part of [build] that runs after the external install and build
    commands: static output classification, function discovery, per-function
    dependency tracing through the path cache, packaging into lambdas, the
    fallback route configuration and the final output object.

    Paths are modelled as in Node's POSIX [path] module: absolute paths as
    normalised segment lists, relative paths and object keys as strings
    rendered with ['/']. *)

From Stdlib Require Import String Ascii List ZArith Bool Lia Floats.
Import ListNotations.
Open Scope string_scope.
Open Scope list_scope.

(* ------------------------------------------------------------------ *)
(** ** Strings and Node's [path] module (POSIX) *)

(** [s.split('/')] *)
Fixpoint split_slash (s : string) : list string :=
  match s with
  | EmptyString => [""]
  | String c s' =>
      let r := split_slash s' in
      if Ascii.eqb c "/"%char then "" :: r
      else match r with
           | h :: t => String c h :: t
           | [] => [String c ""]
           end
  end.

(** The non-empty segments of a path string. *)
Definition split_path (s : string) : list string :=
  filter (fun x => negb (String.eqb x "")) (split_slash s).

(** [segs.join('/')] *)
Fixpoint render (segs : list string) : string :=
  match segs with
  | [] => ""
  | [x] => x
  | x :: xs => append x (append "/" (render xs))
  end.

Definition starts_with_slash (s : string) : bool :=
  match s with String c _ => Ascii.eqb c "/"%char | EmptyString => false end.

Definition ends_with (suffix s : string) : bool :=
  let n := String.length s in
  let m := String.length suffix in
  (m <=? n)%nat && String.eqb (substring (n - m) m s) suffix.

Definition ends_with_slash (s : string) : bool := ends_with "/" s.

(** Node's [normalizeString] for an absolute path: ["."] and empty segments
    vanish, [".."] drops the previous segment and is lost at the root. *)
Definition norm_abs_step (acc : list string) (s : string) : list string :=
  if String.eqb s "" || String.eqb s "." then acc
  else if String.eqb s ".." then tl acc
  else s :: acc.

Definition normalize_abs (segs : list string) : list string :=
  rev (fold_left norm_abs_step segs []).

(** [normalizeString] for a relative path ([allowAboveRoot]): a [".."] that
    cannot be cancelled is kept. *)
Definition norm_rel_step (acc : list string) (s : string) : list string :=
  if String.eqb s "" || String.eqb s "." then acc
  else if String.eqb s ".." then
    match acc with
    | x :: r => if String.eqb x ".." then ".." :: acc else r
    | [] => [".."]
    end
  else s :: acc.

Definition normalize_rel (segs : list string) : list string :=
  rev (fold_left norm_rel_step segs []).

(** An absolute path: the segments after the leading ['/']. *)
Definition path := list string.

(** [join(p, rel)] for an absolute [p]. *)
Definition path_join (p : path) (rel : list string) : path :=
  normalize_abs (p ++ rel).

(** [join(a, b)] on strings, as [path.posix.join]: join the non-empty
    arguments with ['/'] and normalise, keeping a leading and a trailing
    slash; an empty result is ["."]. *)
Definition path_join_str (a b : string) : string :=
  let joined :=
    if String.eqb a "" then b
    else if String.eqb b "" then a
    else append a (append "/" b) in
  if String.eqb joined "" then "."
  else
    let abs := starts_with_slash joined in
    let body := render (if abs then normalize_abs (split_slash joined)
                        else normalize_rel (split_slash joined)) in
    let body := if negb abs && String.eqb body "" then "." else body in
    let body := if ends_with_slash joined && negb (String.eqb body "")
                then append body "/" else body in
    if abs then append "/" body else body.

(** [relative(from, to)] for two absolute paths. *)
Fixpoint path_relative (from to : path) : list string :=
  match from, to with
  | f :: fs, t :: ts =>
      if String.eqb f t then path_relative fs ts
      else map (fun _ => "..") from ++ to
  | [], _ => to
  | _, [] => map (fun _ => "..") from
  end.

(** Index of the last ['.'] in a string. *)
Fixpoint last_dot_aux (s : string) (i : nat) (acc : option nat) : option nat :=
  match s with
  | EmptyString => acc
  | String c s' =>
      last_dot_aux s' (S i) (if Ascii.eqb c "."%char then Some i else acc)
  end.

Definition last_dot (s : string) : option nat := last_dot_aux s 0 None.

(** [parse(p).ext] of a base name: from the last dot, unless the dot is the
    first character of the base name or the base name is [".."]. *)
Definition ext_of (base : string) : string :=
  match last_dot base with
  | None => ""
  | Some 0 => ""
  | Some k =>
      if String.eqb base ".." then ""
      else substring k (String.length base - k) base
  end.

(** [parse(p).name] of a base name. *)
Definition name_of (base : string) : string :=
  substring 0 (String.length base - String.length (ext_of base)) base.

(** [parse(p).base], [parse(p).dir] and [parse(p).name] of a (normalised)
    path string. *)
Definition parse_base (p : string) : string := last (split_path p) "".
Definition parse_dir (p : string) : string :=
  let segs := split_path p in
  let d := render (removelast segs) in
  if starts_with_slash p then append "/" d else d.
Definition parse_name (p : string) : string := name_of (parse_base p).

(** The same on an absolute path held as segments. *)
Definition path_base (p : path) : string := last p "".
Definition path_dir (p : path) : path := removelast p.

(** [basename(p, suffix)]: the base name with [suffix] removed when it ends
    with it and is not equal to it. *)
Definition basename_suffix (p suffix : string) : string :=
  let base := parse_base p in
  if ends_with suffix base && negb (String.eqb base suffix)
  then substring 0 (String.length base - String.length suffix) base
  else base.

(** [s.replace(pat, rep)] with a string pattern: the first occurrence only. *)
Fixpoint replace_first (pat rep s : string) : string :=
  if String.prefix pat s
  then append rep (substring (String.length pat) (String.length s - String.length pat) s)
  else match s with
       | EmptyString => EmptyString
       | String c s' => String c (replace_first pat rep s')
       end.

(** [s.replace(/^\//, '')] *)
Definition strip_leading_slash (s : string) : string :=
  match s with
  | String c s' => if Ascii.eqb c "/"%char then s' else s
  | EmptyString => EmptyString
  end.

(* ------------------------------------------------------------------ *)
(** ** JS objects used as maps

    Insertion-ordered association lists: assigning an existing key replaces
    its value in place, a new key is appended ([Object.entries] order). *)

Definition obj (V : Type) := list (string * V).

Fixpoint obj_get {V} (o : obj V) (k : string) : option V :=
  match o with
  | [] => None
  | (k', v) :: o' => if String.eqb k' k then Some v else obj_get o' k
  end.

(** [o[k] = v] *)
Fixpoint obj_set {V} (o : obj V) (k : string) (v : V) : obj V :=
  match o with
  | [] => [(k, v)]
  | (k', v') :: o' =>
      if String.eqb k' k then (k', v) :: o' else (k', v') :: obj_set o' k v
  end.

(** [{ ...a, ...b }] *)
Definition obj_spread {V} (a b : obj V) : obj V :=
  fold_left (fun acc '(k, v) => obj_set acc k v) b a.

(* ------------------------------------------------------------------ *)
(** ** Files ([@vercel/build-utils]) *)

(** A Buffer is modelled by its bytes as a string. *)
Definition Buffer := string.

(** [buffer.toString()] (UTF-8 decoding, a fixed function of the bytes). *)
Definition buf_toString (b : Buffer) : string := b.

Record FileFsRef := mkFileFsRef {
  ref_id : nat;               (* object identity *)
  fsPath : path;
  ref_mode : Z;
  contentType : option string
}.

Record FileBlob := mkFileBlob {
  blob_id : nat;
  blob_data : Buffer;
  blob_mode : Z
}.

Inductive File :=
| FsRefFile (r : FileFsRef)
| BlobFile (b : FileBlob).

Definition file_id (f : File) : nat :=
  match f with FsRefFile r => ref_id r | BlobFile b => blob_id b end.

Definition S_IFMT : Z := 61440.    (* 0o170000 *)
Definition S_IFLNK : Z := 40960.   (* 0o120000 *)
Definition S_IFDIR : Z := 16384.   (* 0o040000 *)

Definition isSymbolicLink (mode : Z) : bool := Z.eqb (Z.land mode S_IFMT) S_IFLNK.

Record Lambda := mkLambda {
  files : obj File;
  handler : string;
  runtime : string;
  memory : option Z;
  maxDuration : option Z;
  shouldAddHelpers : bool;
  shouldAddSourcemapSupport : bool;
  awsLambdaHandler : string
}.

Inductive Output :=
| OStatic (r : FileFsRef)
| OLambda (l : Lambda).

(** [@vercel/routing-utils] input: [nowConfig]. *)
Record Rewrite := mkRewrite { source : string; destination : string }.
Record RoutesConfig := mkRoutesConfig {
  rewrites : list Rewrite;
  cleanUrls : bool;
  trailingSlash : bool
}.

Definition Route := string.

Record BuildResult := mkBuildResult {
  output : obj Output;
  routes : list Route
}.

(* ------------------------------------------------------------------ *)
(** ** The environment of one run

    The project tree on disk, the faults the file system reports, and the
    external collaborators: the dependency tracer [nodeFileTrace], the
    per-function configuration lookup and the route transformer. *)

Record FsNode := mkFsNode {
  node_path : path;           (* a regular file or a symbolic link *)
  node_mode : Z;
  node_data : Buffer          (* what [readFileSync] returns *)
}.

(** A warning of the tracer, through its [stack] property. *)
Definition Warning := option string.

(** An exception: a Node system error or an [Error]. *)
Inductive exn :=
| ExnCode (code : string)     (* a Node system error with [e.code] *)
| ExnMsg (msg : string).      (* [new Error(msg)] *)

(** [nodeFileTrace] reads files through the [readFile] it is given, in an
    order that may depend on what it has read, then returns its result.
    Some of its reads are guarded: a read made while resolving a dependency
    (a [package.json], say) that throws is caught by the tracer, which
    records a warning and goes on ([TReadCatch], with what it does next
    given the exception); an exception of any other read ([TRead], such as
    reading a file it analyses) escapes the tracer. *)
Inductive trace_prog :=
| TDone (fileList esmFileList : list string) (warnings : list Warning)
| TRead (p : path) (k : option string -> trace_prog)
| TReadCatch (p : path) (k : option string -> trace_prog) (h : exn -> trace_prog).

Record Env := mkEnv {
  workPath : path;
  apiProxyPath : option string;           (* [toml?.web?.apiProxyPath] *)
  fs_nodes : list FsNode;
  fs_faults : list (path * string);       (* access fails with this errno code *)
  nft : path -> trace_prog;               (* [nodeFileTrace([absEntrypoint], ...)] *)
  lambdaOptions : string -> option Z * option Z;
      (* [getLambdaOptionsFromFunction({ sourceFile, config })] *)
  nodeRuntime : string;                   (* [nodeVersion.runtime] *)
  transformRoutes : RoutesConfig -> list Route + string
      (* [getTransformedRoutes]: routes, or [error.message] *)
}.

(* ------------------------------------------------------------------ *)
(** ** State and exceptions *)

Inductive res (A : Type) :=
| Ok (a : A)
| Exn (e : exn).
Arguments Ok {A} a.
Arguments Exn {A} e.

Record St := mkSt {
  sourceCache : obj (option Buffer);   (* [null] is a cached not-found *)
  fsCache : obj File;
  next_id : nat;                       (* allocator of object identities *)
  fs_log : list (string * path);       (* system calls performed *)
  debug_log : list string              (* lines passed to [debug] *)
}.

(** State is kept when an exception is thrown, as mutations in JS are. *)
Definition M (A : Type) := St -> res A * St.

Definition ret {A} (a : A) : M A := fun st => (Ok a, st).
Definition throw {A} (e : exn) : M A := fun st => (Exn e, st).
Definition bind {A B} (m : M A) (f : A -> M B) : M B :=
  fun st => match m st with
            | (Ok a, st') => f a st'
            | (Exn e, st') => (Exn e, st')
            end.
Definition try_catch {A} (m : M A) (h : exn -> M A) : M A :=
  fun st => match m st with
            | (Ok a, st') => (Ok a, st')
            | (Exn e, st') => h e st'
            end.
Definition get : M St := fun st => (Ok st, st).
Definition modify (f : St -> St) : M unit := fun st => (Ok tt, f st).

Notation "'let*' x ':=' m 'in' k" := (bind m (fun x => k))
  (at level 200, x name, m at level 100, right associativity).

Definition set_sourceCache k v (st : St) : St :=
  mkSt (obj_set (sourceCache st) k v) (fsCache st) (next_id st) (fs_log st) (debug_log st).
Definition set_fsCache k v (st : St) : St :=
  mkSt (sourceCache st) (obj_set (fsCache st) k v) (next_id st) (fs_log st) (debug_log st).
Definition log_call (call : string) (p : path) (st : St) : St :=
  mkSt (sourceCache st) (fsCache st) (next_id st) (fs_log st ++ [(call, p)]) (debug_log st).
Definition log_debug (s : string) (st : St) : St :=
  mkSt (sourceCache st) (fsCache st) (next_id st) (fs_log st) (debug_log st ++ [s]).

(** A fresh object identity ([new ...]). *)
Definition alloc : M nat :=
  fun st => (Ok (next_id st),
             mkSt (sourceCache st) (fsCache st) (S (next_id st)) (fs_log st) (debug_log st)).

(** [debug(msg)] *)
Definition debug (s : string) : M unit := modify (log_debug s).

(* ------------------------------------------------------------------ *)
(** ** The file system ([fs]) *)

Fixpoint path_eqb (p q : path) : bool :=
  match p, q with
  | [], [] => true
  | x :: p', y :: q' => String.eqb x y && path_eqb p' q'
  | _, _ => false
  end.

(** [strip_prefix dir p]: the segments of [p] below [dir], if any. *)
Fixpoint strip_prefix (dir p : path) : option (list string) :=
  match dir, p with
  | [], _ => Some p
  | d :: dir', x :: p' => if String.eqb d x then strip_prefix dir' p' else None
  | _ :: _, [] => None
  end.

Definition find_node (env : Env) (p : path) : option FsNode :=
  find (fun n => path_eqb (node_path n) p) (fs_nodes env).

(** A directory exists where some file lies strictly below it. *)
Definition is_dir (env : Env) (p : path) : bool :=
  existsb (fun n => match strip_prefix p (node_path n) with
                    | Some (_ :: _) => true
                    | _ => false
                    end) (fs_nodes env).

Definition fault (env : Env) (p : path) : option string :=
  match find (fun f => path_eqb (fst f) p) (fs_faults env) with
  | Some (_, c) => Some c
  | None => None
  end.

(** [readFileSync(p)] *)
Definition readFileSync (env : Env) (p : path) : M Buffer :=
  fun st =>
    let st := log_call "readFileSync" p st in
    match fault env p with
    | Some c => (Exn (ExnCode c), st)
    | None =>
        match find_node env p with
        | Some n => (Ok (node_data n), st)
        | None =>
            if is_dir env p then (Exn (ExnCode "EISDIR"), st)
            else (Exn (ExnCode "ENOENT"), st)
        end
    end.

(** [lstatSync(p).mode] *)
Definition lstatSync (env : Env) (p : path) : M Z :=
  fun st =>
    let st := log_call "lstatSync" p st in
    match fault env p with
    | Some c => (Exn (ExnCode c), st)
    | None =>
        match find_node env p with
        | Some n => (Ok (node_mode n), st)
        | None =>
            if is_dir env p then (Ok (Z.lor S_IFDIR 493), st)
            else (Exn (ExnCode "ENOENT"), st)
        end
    end.

(** [existsSync(p)] *)
Definition existsSync (env : Env) (p : path) : bool :=
  match find_node env p with
  | Some _ => true
  | None => is_dir env p
  end.

(** [new FileFsRef({ fsPath, mode })] *)
Definition new_FileFsRef (p : path) (mode : Z) (ct : option string) : M FileFsRef :=
  let* id := alloc in ret (mkFileFsRef id p mode ct).

(** [new FileBlob({ data, mode })] *)
Definition new_FileBlob (data : Buffer) (mode : Z) : M FileBlob :=
  let* id := alloc in ret (mkFileBlob id data mode).

(** [FileFsRef.fromFsPath({ fsPath })]: [lstat] for the mode, then a new
    [FileFsRef]. *)
Definition fromFsPath (env : Env) (p : path) : M FileFsRef :=
  let* mode := lstatSync env p in new_FileFsRef p mode None.

(** [glob(pattern, dir)]: a new [FileFsRef] per matching file, keyed by its
    path relative to [dir]; [matches] decides the pattern on that relative
    path. *)
Fixpoint glob_nodes (dir : path) (matches : list string -> bool) (ns : list FsNode)
    (acc : obj FileFsRef) : M (obj FileFsRef) :=
  match ns with
  | [] => ret acc
  | n :: ns' =>
      match strip_prefix dir (node_path n) with
      | Some rel =>
          if matches rel then
            let* r := new_FileFsRef (node_path n) (node_mode n) None in
            glob_nodes dir matches ns' (obj_set acc (render rel) r)
          else glob_nodes dir matches ns' acc
      | None => glob_nodes dir matches ns' acc
      end
  end.

Definition glob (env : Env) (matches : list string -> bool) (dir : path) : M (obj FileFsRef) :=
  glob_nodes dir matches (fs_nodes env) [].

(** The patterns used: ['**'], ['*.js'] and ['*/*.js']. *)
Definition pat_all (rel : list string) : bool :=
  match rel with [] => false | _ => true end.
Definition pat_top_js (rel : list string) : bool :=
  match rel with [x] => ends_with ".js" x | _ => false end.
Definition pat_nested_js (rel : list string) : bool :=
  match rel with [_; x] => ends_with ".js" x | _ => false end.

(* ------------------------------------------------------------------ *)
(** ** The path cache: the [readFile] handed to [nodeFileTrace] *)

Definition cache_key (env : Env) (fsPath : path) : string :=
  render (path_relative (workPath env) fsPath).

Definition readFile (env : Env) (fsPath : path) : M (option string) :=
  let relPath := cache_key env fsPath in
  let* st := get in
  match obj_get (sourceCache st) relPath with
  | Some (Some cached) => ret (Some (buf_toString cached))
      (* [if (cached)]: a Buffer is an object, hence truthy *)
  | Some None => ret None
      (* [null] represents a not found *)
  | None =>
      try_catch
        (let* source := readFileSync env fsPath in
         let* mode := lstatSync env fsPath in
         let* entry :=
           (if isSymbolicLink mode
            then let* r := new_FileFsRef fsPath mode None in ret (FsRefFile r)
            else let* b := new_FileBlob source mode in ret (BlobFile b)) in
         let* _ := modify (set_fsCache relPath entry) in
         let* _ := modify (set_sourceCache relPath (Some source)) in
         ret (Some (buf_toString source)))
        (fun e =>
           match e with
           | ExnCode c =>
               if String.eqb c "ENOENT" || String.eqb c "EISDIR"
               then let* _ := modify (set_sourceCache relPath None) in ret None
               else throw e
           | ExnMsg _ => throw e
           end)
  end.

(** Running the tracer with [readFile] as its file access backend: an
    exception of an unguarded read escapes, one of a guarded read is
    handled by the tracer. *)
Fixpoint run_trace (env : Env) (t : trace_prog)
    : M (list string * list string * list Warning) :=
  match t with
  | TDone fl efl ws => ret (fl, efl, ws)
  | TRead p k => let* r := readFile env p in run_trace env (k r)
  | TReadCatch p k h =>
      fun st => match readFile env p st with
                | (Ok r, st1) => run_trace env (k r) st1
                | (Exn e, st1) => run_trace env (h e) st1
                end
  end.

(* ------------------------------------------------------------------ *)
(** ** Packaging one function *)

(** [for (const warning of warnings) if (warning?.stack) debug(...)] *)
Fixpoint forward_warnings (ws : list Warning) : M unit :=
  match ws with
  | [] => ret tt
  | w :: ws' =>
      let* _ :=
        match w with
        | Some stack =>
            if String.eqb stack "" then ret tt
            else debug (replace_first "Error: " "Warning: " stack)
        | None => ret tt
        end in
      forward_warnings ws'
  end.

(** [path.sep] on a POSIX host. *)
Definition sep : string := "/".

Definition getAWSLambdaHandler (filePath handlerName : string) : string :=
  let dir := parse_dir filePath in
  let name := parse_name filePath in
  append dir (append (if String.eqb dir "" then "" else sep)
                     (append name (append "." handlerName))).

(** [join(apiDir, parsePath(funcName).name)] *)
Definition outputName_of (apiDir funcName : string) : string :=
  path_join_str apiDir (parse_name funcName).

(** [relative(workPath, absEntrypoint)] *)
Definition relative_entrypoint (env : Env) (fileFsRef : FileFsRef) : string :=
  render (path_relative (workPath env) (fsPath fileFsRef)).

(** [for (const filePath of allFiles) lambdaFiles[filePath] = await FileFsRef.fromFsPath(...)] *)
Fixpoint collect_files (env : Env) (filePaths : list string) (lambdaFiles : obj File)
    : M (obj File) :=
  match filePaths with
  | [] => ret lambdaFiles
  | filePath :: rest =>
      let* r := fromFsPath env (path_join (workPath env) (split_slash filePath)) in
      collect_files env rest (obj_set lambdaFiles filePath (FsRefFile r))
  end.

(** The body of [for (const [funcName, fileFsRef] of Object.entries(functionFiles))],
    returning [outputName] and the lambda. *)
Definition package_function (env : Env) (apiDir : string) (entry : string * FileFsRef)
    : M (string * Lambda) :=
  let '(funcName, fileFsRef) := entry in
  let outputName := outputName_of apiDir funcName in
  let absEntrypoint := fsPath fileFsRef in
  let relativeEntrypoint := relative_entrypoint env fileFsRef in
  let awsHandler := getAWSLambdaHandler relativeEntrypoint "handler" in
  let sourceFile := replace_first "/dist/" "/src/" relativeEntrypoint in
  let* tr := run_trace env (nft env absEntrypoint) in
  let '(fileList, esmFileList, warnings) := tr in
  let* _ := forward_warnings warnings in
  let* lambdaFiles := collect_files env (fileList ++ esmFileList) [] in
  let lambdaFiles :=
    obj_set lambdaFiles (render (path_relative (workPath env) (fsPath fileFsRef)))
            (FsRefFile fileFsRef) in
  let '(mem, maxDur) := lambdaOptions env sourceFile in
  ret (outputName,
       mkLambda lambdaFiles relativeEntrypoint (nodeRuntime env) mem maxDur
                false false awsHandler).

(** [lambdaOutputs[outputName] = lambda] for each function in turn. *)
Fixpoint package_all (env : Env) (apiDir : string) (fns : obj FileFsRef)
    (lambdaOutputs : obj Lambda) : M (obj Lambda) :=
  match fns with
  | [] => ret lambdaOutputs
  | entry :: rest =>
      let* r := package_function env apiDir entry in
      package_all env apiDir rest (obj_set lambdaOutputs (fst r) (snd r))
  end.

(* ------------------------------------------------------------------ *)
(** ** Static outputs *)

(** One iteration of the loop over [Object.entries(webDistFiles)]: the key
    written and the (possibly updated) file reference. *)
Definition static_entry (webDistPath : path) (entry : string * FileFsRef)
    : string * FileFsRef :=
  let '(fileName, fileFsRef) := entry in
  let parsedPath := fsPath fileFsRef in
  if negb (String.eqb (ext_of (path_base parsedPath)) ".html")
  then (fileName, fileFsRef)
  else
    let fileNameWithoutExtension := basename_suffix fileName ".html" in
    let pathWithoutHtmlExtension :=
      path_join (path_dir parsedPath) (split_slash fileNameWithoutExtension) in
    (render (path_relative webDistPath pathWithoutHtmlExtension),
     mkFileFsRef (ref_id fileFsRef) (fsPath fileFsRef) (ref_mode fileFsRef)
                 (Some "text/html; charset=utf-8")).

Definition staticOutputs_of (webDistPath : path) (webDistFiles : obj FileFsRef)
    : obj FileFsRef :=
  fold_left (fun acc e => let '(k, v) := static_entry webDistPath e in obj_set acc k v)
            webDistFiles [].

(* ------------------------------------------------------------------ *)
(** ** Routes and the whole run *)

(** [toml?.web?.apiProxyPath?.replace(/^\//, '') ?? 'api'] *)
Definition apiDir_of (apiProxyPath : option string) : string :=
  match apiProxyPath with
  | Some p => strip_leading_slash p
  | None => "api"
  end.

Definition apiDistPath (env : Env) : path := path_join (workPath env) ["api"; "dist"; "functions"].
Definition webDistPath (env : Env) : path := path_join (workPath env) ["web"; "dist"].

Definition fallbackHtmlPage (env : Env) : string :=
  if existsSync env (path_join (webDistPath env) ["200.html"]) then "/200" else "/index".

(** The [nowConfig] handed to [getTransformedRoutes]. *)
Definition defaultRoutesNowConfig (fallback : string) : RoutesConfig :=
  mkRoutesConfig [mkRewrite "/(.*)" fallback] true false.

(** The two [glob] calls: [webDistFiles] and
    [functionFiles = { ...top-level, ...one-level-deep }]. *)
Definition discover (env : Env) : M (obj FileFsRef * obj FileFsRef) :=
  let* webDistFiles := glob env pat_all (webDistPath env) in
  let* top := glob env pat_top_js (apiDistPath env) in
  let* nested := glob env pat_nested_js (apiDistPath env) in
  ret (webDistFiles, obj_spread top nested).

Definition as_static (e : string * FileFsRef) : string * Output := (fst e, OStatic (snd e)).
Definition as_lambda (e : string * Lambda) : string * Output := (fst e, OLambda (snd e)).

(** The tail of [build] after the external build command.  The static
    classification does no I/O, so computing it after the function [glob]
    gives the same result. *)
Definition build (env : Env) : M BuildResult :=
  let apiDir := apiDir_of (apiProxyPath env) in
  let* d := discover env in
  let '(webDistFiles, functionFiles) := d in
  let staticOutputs := staticOutputs_of (webDistPath env) webDistFiles in
  let* lambdaOutputs := package_all env apiDir functionFiles [] in
  match transformRoutes env (defaultRoutesNowConfig (fallbackHtmlPage env)) with
  | inr msg => throw (ExnMsg msg)
  | inl rs =>
      ret (mkBuildResult
             (obj_spread (map as_static staticOutputs) (map as_lambda lambdaOutputs))
             rs)
  end.

(** An empty state: the caches of a new run. *)
Definition init_st : St := mkSt [] [] 0 [] [].

(* ------------------------------------------------------------------ *)
(** ** Vocabulary of the properties *)

Fixpoint no_slash (s : string) : bool :=
  match s with
  | EmptyString => true
  | String c s' => negb (Ascii.eqb c "/"%char) && no_slash s'
  end.

(** A path segment as [glob] and [relative] produce it. *)
Definition seg_ok (s : string) : bool := no_slash s && negb (String.eqb s "").

(** A segment left unchanged by [normalize]. *)
Definition seg_norm (s : string) : bool :=
  seg_ok s && negb (String.eqb s ".") && negb (String.eqb s "..").

(** Every entry the path cache held in [s1] is still there, unchanged, in
    [s2]. *)
Definition cache_extends (s1 s2 : St) : Prop :=
  forall k v, obj_get (sourceCache s1) k = Some v -> obj_get (sourceCache s2) k = Some v.

(** A computation that only ever extends the path cache. *)
Definition keeps_cache {A} (m : M A) : Prop :=
  forall st r st', m st = (r, st') -> cache_extends st st'.

(** The non-empty [stack]s among the warnings. *)
Fixpoint warning_stacks (ws : list Warning) : list string :=
  match ws with
  | [] => []
  | Some s :: ws' => if String.eqb s "" then warning_stacks ws' else s :: warning_stacks ws'
  | None :: ws' => warning_stacks ws'
  end.

(** The file stored under [key] in the lambda named [outName]. *)
Definition lambda_file (r : res BuildResult) (outName key : string) : option File :=
  match r with
  | Ok m =>
      match obj_get (output m) outName with
      | Some (OLambda l) => obj_get (files l) key
      | _ => None
      end
  | Exn _ => None
  end.

(* ------------------------------------------------------------------ *)
(** ** Concrete projects *)

Definition regular_file (p : path) : FsNode := mkFsNode p 33188%Z "module.exports = {}".

(** Every function reads itself and a shared library, and lists both. *)
Definition trace_with_lib (p : path) : trace_prog :=
  TRead p (fun _ =>
  TRead ["w"; "api"; "dist"; "lib"; "db.js"] (fun _ =>
  TDone [render (tl p); "api/dist/lib/db.js"] [] [])).

Definition project_env (nodes : list FsNode) (faults : list (path * string))
    (tr : path -> trace_prog) (ws : option string) : Env :=
  mkEnv ["w"] ws nodes faults tr (fun _ => (None, None)) "nodejs18.x"
        (fun _ => inl ["catch-all"]).

(** [functions/bazinga.js] and [functions/bazinga/bazinga.js]. *)
Definition env_bazinga : Env :=
  project_env
    [regular_file ["w"; "api"; "dist"; "functions"; "bazinga.js"];
     regular_file ["w"; "api"; "dist"; "functions"; "bazinga"; "bazinga.js"];
     regular_file ["w"; "api"; "dist"; "lib"; "db.js"];
     regular_file ["w"; "web"; "dist"; "index.html"]]
    [] trace_with_lib None.

(** Two functions sharing [lib/db.js]. *)
Definition env_shared : Env :=
  project_env
    [regular_file ["w"; "api"; "dist"; "functions"; "a.js"];
     regular_file ["w"; "api"; "dist"; "functions"; "b.js"];
     regular_file ["w"; "api"; "dist"; "lib"; "db.js"];
     regular_file ["w"; "web"; "dist"; "index.html"]]
    [] trace_with_lib None.

(** As [env_shared], but [b.js] also reads an unreadable file. *)
Definition env_unreadable : Env :=
  project_env
    [regular_file ["w"; "api"; "dist"; "functions"; "a.js"];
     regular_file ["w"; "api"; "dist"; "functions"; "b.js"];
     regular_file ["w"; "api"; "dist"; "lib"; "db.js"];
     regular_file ["w"; "api"; "dist"; "lib"; "secret.js"];
     regular_file ["w"; "web"; "dist"; "index.html"]]
    [(["w"; "api"; "dist"; "lib"; "secret.js"], "EACCES")]
    (fun p =>
       if String.eqb (last p "") "b.js"
       then TRead ["w"; "api"; "dist"; "lib"; "secret.js"] (fun _ => trace_with_lib p)
       else trace_with_lib p)
    None.

(** As [env_unreadable], but [b.js] reads the unreadable file while
    resolving a dependency, a read the tracer guards: on an error it goes
    on as if the file had not been read. *)
Definition env_guarded : Env :=
  project_env
    [regular_file ["w"; "api"; "dist"; "functions"; "a.js"];
     regular_file ["w"; "api"; "dist"; "functions"; "b.js"];
     regular_file ["w"; "api"; "dist"; "lib"; "db.js"];
     regular_file ["w"; "api"; "dist"; "lib"; "secret.js"];
     regular_file ["w"; "web"; "dist"; "index.html"]]
    [(["w"; "api"; "dist"; "lib"; "secret.js"], "EACCES")]
    (fun p =>
       if String.eqb (last p "") "b.js"
       then TReadCatch ["w"; "api"; "dist"; "lib"; "secret.js"]
              (fun _ => trace_with_lib p) (fun _ => trace_with_lib p)
       else trace_with_lib p)
    None.

(** As [env_shared], but the trace of [b.js] also lists
    [api/dist/assets/logo.png], a file it never reads and that is not on
    disk. *)
Definition env_missing_asset : Env :=
  project_env
    [regular_file ["w"; "api"; "dist"; "functions"; "a.js"];
     regular_file ["w"; "api"; "dist"; "functions"; "b.js"];
     regular_file ["w"; "api"; "dist"; "lib"; "db.js"];
     regular_file ["w"; "web"; "dist"; "index.html"]]
    []
    (fun p =>
       if String.eqb (last p "") "b.js"
       then TRead p (fun _ =>
            TRead ["w"; "api"; "dist"; "lib"; "db.js"] (fun _ =>
            TDone [render (tl p); "api/dist/lib/db.js"; "api/dist/assets/logo.png"] [] []))
       else trace_with_lib p)
    None.

(** A project with [web/dist/200.html]. *)
Definition env_spa : Env :=
  project_env
    [regular_file ["w"; "api"; "dist"; "functions"; "graphql.js"];
     regular_file ["w"; "web"; "dist"; "200.html"];
     regular_file ["w"; "web"; "dist"; "index.html"]]
    [] (fun p => TRead p (fun _ => TDone [render (tl p)] [] [])) None.

(* ------------------------------------------------------------------ *)
(** ** The steps before the build output is read (lines 55-165)

    [download] and the external commands change the project tree on disk;
    the tree [Env] describes is the one they leave.  What is modelled here
    is what [build] decides on its own: the [REDWOOD_ENV_] copies of the
    [VERCEL_] variables, the [PATH] of the spawn options, the install and
    build commands it runs and the order in which it runs them. *)

(** A JSON value of [package.json]; numbers are binary64 floats, as in JS. *)
#[warnings="-register-all"]
Inductive JsVal :=
| JUndef
| JNull
| JBool (b : bool)
| JNum (x : float)
| JStr (s : string)
| JObj (o : list (string * JsVal)).

(** A number is truthy unless it is [0], [-0] or [NaN]. *)
Definition num_truthy (x : float) : bool :=
  negb (PrimFloat.is_nan x) && negb (PrimFloat.eqb x 0%float).

Definition js_truthy (v : JsVal) : bool :=
  match v with
  | JUndef | JNull => false
  | JBool b => b
  | JNum x => num_truthy x
  | JStr s => negb (String.eqb s "")
  | JObj o => true
  end.

(** [v[k]], or [None] when it throws a [TypeError] ([v] nullish).  The names
    read here ([scripts], [devDependencies], [build], [vercel-build],
    [@redwoodjs/core]) are no array index, not [length] and no member of a
    built-in prototype, so on a primitive they read [undefined]. *)
Definition get_prop (v : JsVal) (k : string) : option JsVal :=
  match v with
  | JUndef | JNull => None
  | JObj o => Some (match obj_get o k with Some x => x | None => JUndef end)
  | _ => Some JUndef
  end.

(** [hasScript(scriptName, pkg)] *)
Definition hasScript (scriptName : string) (pkg : JsVal) : bool :=
  let scripts :=
    if js_truthy pkg
    then match get_prop pkg "scripts" with Some s => s | None => JUndef end
    else pkg in
  let scripts := if js_truthy scripts then scripts else JObj [] in
  match get_prop scripts scriptName with
  | Some (JStr _) => true
  | _ => false
  end.

(** The [REDWOOD_ENV_] name of a variable. *)
Definition redwood_env_key (key : string) : string := append "REDWOOD_ENV_" key.

(** One iteration of [.forEach(key => ...)] on [process.env]. *)
Definition mirror_one (env : obj string) (key : string) : obj string :=
  let newKey := redwood_env_key key in
  match obj_get env newKey with
  | Some _ => env
  | None =>
      obj_set env newKey (match obj_get env key with Some v => v | None => "undefined" end)
  end.

(** Lines 57-64: [Object.keys] is read once, before the loop. *)
Definition mirror_vercel_env (env : obj string) : obj string :=
  fold_left mirror_one (filter (String.prefix "VERCEL_") (map fst env)) env.

(** [path.delimiter] on a POSIX host. *)
Definition delimiter : string := ":".

(** [`${spawnOpts.env.PATH}`]: ["undefined"] when unset. *)
Definition env_PATH (env : obj string) : string :=
  match obj_get env "PATH" with Some v => v | None => "undefined" end.

(** The binary64 value of the literal [5.4]. *)
Definition pnpm7_lockfile : float := 0x1.599999999999ap+2%float.

(** Lines 83-99: the spawn environment afterwards and the console lines. *)
Definition adjust_path (cliType : string) (lockfileVersion : option float)
    (major : float) (env : obj string) : obj string * list string :=
  if String.eqb cliType "npm" then
    match lockfileVersion with
    | Some v =>
        if PrimFloat.leb 2%float v
           && PrimFloat.ltb (if num_truthy major then major else 0%float) 16%float
        then (obj_set env "PATH" (append "/node16/bin-npm7" (append delimiter (env_PATH env))),
              ["Detected `package-lock.json` generated by npm 7..."])
        else (env, [])
    | None => (env, [])
    end
  else if String.eqb cliType "pnpm" then
    match lockfileVersion with
    | Some v =>
        if PrimFloat.eqb v pnpm7_lockfile
        then (obj_set env "PATH"
                (append "/pnpm7/node_modules/.bin" (append delimiter (env_PATH env))),
              ["Detected `pnpm-lock.yaml` generated by pnpm 7..."])
        else (env, [])
    | None => (env, [])
    end
  else (env, []).

(** White space and line terminators of ECMAScript among the code units
    a Rocq [string] holds (below 256): TAB, LF, VT, FF, CR, SPACE, NBSP. *)
Definition js_space (c : ascii) : bool :=
  let n := nat_of_ascii c in
  ((9 <=? n) && (n <=? 13))%nat || (n =? 32)%nat || (n =? 160)%nat.

Fixpoint trim_start (s : string) : string :=
  match s with
  | EmptyString => EmptyString
  | String c s' => if js_space c then trim_start s' else s
  end.

Fixpoint trim_end (s : string) : string :=
  match s with
  | EmptyString => EmptyString
  | String c s' =>
      let r := trim_end s' in
      if String.eqb r "" && js_space c then EmptyString else String c r
  end.

(** [s.trim()] *)
Definition js_trim (s : string) : string := trim_end (trim_start s).

Definition dq : string := String (ascii_of_nat 34) EmptyString.

(** A command [build] starts, with the environment it is given. *)
Inductive Command :=
| Exec (cmd : string) (env : obj string) (cwd : path)
      (* [execCommand(cmd, { ...spawnOpts, env, cwd })] *)
| RunNpmInstall (cwd : path) (env : obj string)
      (* [runNpmInstall(cwd, [], spawnOpts, meta, nodeVersion)] *)
| RunScript (cwd : path) (name : string) (env : obj string).
      (* [runPackageJsonScript(cwd, name, spawnOpts)] *)

(** What the first steps read: configuration, [meta], the results of
    [getNodeVersion], [getSpawnOptions], [scanParentDirs] and
    [readConfigFile], the two [semver] functions, and which commands
    reject. *)
Record PreEnv := mkPreEnv {
  pre_workPath : path;
  entrypoint : string;
  installCommand : option string;     (* [config.installCommand] if a string *)
  buildCommand : option string;       (* [config.buildCommand], absent or null: [None] *)
  isDev : bool;                       (* [meta.isDev] *)
  spawnEnvOf : obj string -> option (obj string);
      (* [getSpawnOptions(meta, nodeVersion).env] for the current [process.env] *)
  nodeMajor : float;                  (* [nodeVersion.major] *)
  cliType : string;                   (* [scanParentDirs(...).cliType] *)
  lockfileVersion : option float;     (* a number, or [undefined] *)
  pkgJson : JsVal;                    (* [readConfigFile('package.json')], [null] if absent *)
  validRange : JsVal -> bool;         (* [validRange(r)] is not null *)
  intersectsLegacy : JsVal -> bool;   (* [intersects(r, '<0.25.0')] *)
  cmd_error : Command -> option string (* the message a rejecting command throws *)
}.

Record PreSt := mkPreSt {
  proc_env : obj string;              (* [process.env] *)
  commands : list Command;            (* commands started, in order *)
  console : list string;              (* [console.log] lines *)
  pre_debug : list string             (* [debug] lines *)
}.

(** The same state and exception discipline as [M], on [PreSt]. *)
Definition P (A : Type) := PreSt -> res A * PreSt.

Definition pret {A} (a : A) : P A := fun s => (Ok a, s).
Definition pthrow {A} (e : exn) : P A := fun s => (Exn e, s).
Definition pbind {A B} (m : P A) (f : A -> P B) : P B :=
  fun s => match m s with
           | (Ok a, s') => f a s'
           | (Exn e, s') => (Exn e, s')
           end.

Notation "'let+' x ':=' m 'in' k" := (pbind m (fun x => k))
  (at level 200, x name, m at level 100, right associativity).

Definition pget : P PreSt := fun s => (Ok s, s).
Definition set_proc_env (e : obj string) : P unit :=
  fun s => (Ok tt, mkPreSt e (commands s) (console s) (pre_debug s)).
Definition log (msg : string) : P unit :=
  fun s => (Ok tt, mkPreSt (proc_env s) (commands s) (console s ++ [msg]) (pre_debug s)).
Definition pdebug (msg : string) : P unit :=
  fun s => (Ok tt, mkPreSt (proc_env s) (commands s) (console s) (pre_debug s ++ [msg])).

Fixpoint log_all (msgs : list string) : P unit :=
  match msgs with
  | [] => pret tt
  | m :: ms => let+ _ := log m in log_all ms
  end.

(** Starting a command; it rejects with [new Error(msg)] when it fails. *)
Definition run_cmd (pe : PreEnv) (c : Command) : P unit :=
  fun s =>
    let s := mkPreSt (proc_env s) (commands s ++ [c]) (console s) (pre_debug s) in
    match cmd_error pe c with
    | Some msg => (Exn (ExnMsg msg), s)
    | None => (Ok tt, s)
    end.

(** [v[k]] in the monad: a [TypeError] on a nullish [v]. *)
Definition read_prop (v : JsVal) (k : string) : P JsVal :=
  match get_prop v k with
  | Some x => pret x
  | None =>
      pthrow (ExnMsg (append "TypeError: Cannot read properties of "
                (append (match v with JNull => "null" | _ => "undefined" end)
                   (append " (reading '" (append k "')")))))
  end.

(** Lines 101-120. *)
Definition install_step (pe : PreEnv) (spawnEnv : obj string) (cwd : path) : P unit :=
  match installCommand pe with
  | Some cmd =>
      if negb (String.eqb (js_trim cmd) "") then
        let+ _ := log (append "Running " (append dq (append "install" (append dq
                    (append " command: `" (append cmd "`...")))))) in
        let env := obj_spread [("YARN_NODE_LINKER", "node-modules")] spawnEnv in
        run_cmd pe (Exec cmd env cwd)
      else log (append "Skipping " (append dq (append "install" (append dq " command..."))))
  | None => run_cmd pe (RunNpmInstall cwd spawnEnv)
  end.

Definition legacy_cmd : string :=
  "yarn rw build && yarn rw db up --no-db-client --auto-approve && yarn rw dataMigrate up".
Definition deploy_cmd : string := "yarn rw deploy vercel".

(** The [else if] chain of lines 138-165, after a falsy [buildCommand]. *)
Definition script_or_default (pe : PreEnv) (spawnEnv : obj string) (pkg : JsVal) : P unit :=
  let wp := pre_workPath pe in
  if hasScript "vercel-build" pkg then
    let+ _ := pdebug (append "Executing " (append dq (append "yarn vercel-build" dq))) in
    run_cmd pe (RunScript wp "vercel-build" spawnEnv)
  else if hasScript "build" pkg then
    let+ _ := pdebug (append "Executing " (append dq (append "yarn build" dq))) in
    run_cmd pe (RunScript wp "build" spawnEnv)
  else
    (* [const { devDependencies = {} } = pkg || {}] *)
    let+ dd := read_prop (if js_truthy pkg then pkg else JObj []) "devDependencies" in
    let devDependencies := match dd with JUndef => JObj [] | d => d end in
    let+ versionRange := read_prop devDependencies "@redwoodjs/core" in
    let+ cmd :=
      if negb (js_truthy versionRange) || negb (validRange pe versionRange) then
        let+ _ := log "WARNING: Unable to detect RedwoodJS version in package.json devDependencies" in
        pret deploy_cmd
      else if intersectsLegacy pe versionRange then pret legacy_cmd
      else pret deploy_cmd in
    run_cmd pe (Exec cmd spawnEnv wp).

(** Lines 132-165. *)
Definition build_step (pe : PreEnv) (spawnEnv : obj string) (pkg : JsVal) : P unit :=
  match buildCommand pe with
  | Some bc =>
      if negb (String.eqb bc "") then
        let+ _ := pdebug (append "Executing build command " (append dq (append bc dq))) in
        run_cmd pe (Exec bc spawnEnv (pre_workPath pe))
      else script_or_default pe spawnEnv pkg
  | None => script_or_default pe spawnEnv pkg
  end.

(** The working directory and the environment a command is started with. *)
Definition cmd_cwd (c : Command) : path :=
  match c with Exec _ _ cwd => cwd | RunNpmInstall cwd _ => cwd | RunScript cwd _ _ => cwd end.
Definition cmd_env (c : Command) : obj string :=
  match c with Exec _ env _ => env | RunNpmInstall _ env => env | RunScript _ _ env => env end.

(** Lines 57-165, from the [REDWOOD_ENV_] copies to the build command.
    [entrypointFsDirname] is [join(workPath, dirname(entrypoint))]; [parse]'s
    [dir] differs from [dirname] only by [""] for ["."], which [join]
    treats alike. *)
Definition prelude (pe : PreEnv) : P unit :=
  let+ s := pget in
  let+ _ := set_proc_env (mirror_vercel_env (proc_env s)) in
  let entrypointFsDirname :=
    path_join (pre_workPath pe) (split_slash (parse_dir (entrypoint pe))) in
  let+ s := pget in
  let spawnEnv := match spawnEnvOf pe (proc_env s) with Some e => e | None => [] end in
  let '(spawnEnv, msgs) := adjust_path (cliType pe) (lockfileVersion pe) (nodeMajor pe) spawnEnv in
  let+ _ := log_all msgs in
  let+ _ := install_step pe spawnEnv entrypointFsDirname in
  if isDev pe then pthrow (ExnMsg "Detected `@vercel/redwood` dev but this is not supported")
  else build_step pe spawnEnv (pkgJson pe).

(** The message of the [TypeError] thrown by reading [@redwoodjs/core] of a
    [null] [devDependencies]. *)
Definition type_error_null : string :=
  "TypeError: Cannot read properties of null (reading '@redwoodjs/core')".

(* ------------------------------------------------------------------ *)
(** ** Concrete inputs of the first steps and of the routes *)

(** A [package.json] with no scripts, on [@redwoodjs/core] [0.24.0]. *)
Definition pkg_legacy : JsVal :=
  JObj [("devDependencies", JObj [("@redwoodjs/core", JStr "0.24.0")])].

(** A [package.json] with a [build] script. *)
Definition pkg_build_script : JsVal :=
  JObj [("scripts", JObj [("build", JStr "rw build")])].

(** An npm project with a version 2 lockfile on Node 14, no [buildCommand],
    the spawn environment equal to [process.env], every range valid and
    intersecting [<0.25.0], and every command succeeding. *)
Definition pre_env_demo (install : option string) (dev : bool) : PreEnv :=
  mkPreEnv ["w"] "api/src/functions/graphql.js" install None dev
    (fun e => Some e) 14%float "npm" (Some 2%float) pkg_legacy
    js_truthy (fun _ => true) (fun _ => None).

Definition pre_st_demo : PreSt :=
  mkPreSt [("VERCEL_URL", "demo.vercel.app"); ("PATH", "/usr/bin")] [] [] [].

(** A project whose route transformation fails. *)
Definition env_bad_routes : Env :=
  mkEnv ["w"] None
    [regular_file ["w"; "api"; "dist"; "functions"; "graphql.js"];
     regular_file ["w"; "api"; "dist"; "lib"; "db.js"];
     regular_file ["w"; "web"; "dist"; "index.html"]]
    [] trace_with_lib (fun _ => (None, None)) "nodejs18.x"
    (fun _ => inr "Invalid rewrite").

(* ================================================================== *)
(** * Properties *)

(** ** Objects *)

Lemma obj_get_set_same {V} (o : obj V) k v : obj_get (obj_set o k v) k = Some v.
Proof.
  induction o as [|[k' v'] o IH]; simpl.
  - now rewrite String.eqb_refl.
  - destruct (String.eqb k' k) eqn:E; simpl; rewrite ?E; auto.
Qed.

Lemma obj_get_set_other {V} (o : obj V) k k' v :
  k <> k' -> obj_get (obj_set o k v) k' = obj_get o k'.
Proof.
  intros Hne. induction o as [|[k0 v0] o IH]; simpl.
  - destruct (String.eqb k k') eqn:E; auto.
    apply String.eqb_eq in E; contradiction.
  - destruct (String.eqb k0 k) eqn:E; simpl.
    + apply String.eqb_eq in E; subst k0.
      destruct (String.eqb k k') eqn:E'; auto.
      apply String.eqb_eq in E'; contradiction.
    + destruct (String.eqb k0 k'); auto.
Qed.

Lemma obj_get_set {V} (o : obj V) k k' v :
  obj_get (obj_set o k v) k' = if String.eqb k k' then Some v else obj_get o k'.
Proof.
  destruct (String.eqb k k') eqn:E.
  - apply String.eqb_eq in E; subst; apply obj_get_set_same.
  - apply obj_get_set_other; intro; subst; now rewrite String.eqb_refl in E.
Qed.

(** ** The path cache *)

Ltac unfold_M :=
  unfold bind, ret, throw, try_catch, get, modify, alloc, debug in *.

Lemma readFile_hit env p st v :
  obj_get (sourceCache st) (cache_key env p) = Some v ->
  readFile env p st = (Ok (option_map buf_toString v), st).
Proof.
  intros H. unfold readFile; unfold_M. rewrite H. destruct v; reflexivity.
Qed.

(** On a miss, the outcome of the two system calls decides everything. *)
Ltac readFile_miss_cases :=
  unfold readFileSync, lstatSync, new_FileFsRef, new_FileBlob in *; unfold_M;
  destruct (fault _ _) eqn:?;
  [ | destruct (find_node _ _) eqn:?;
      [ destruct (isSymbolicLink _) eqn:? | destruct (is_dir _ _) eqn:? ] ];
  simpl in *.

Lemma readFile_ok_stored env p st r st' :
  readFile env p st = (Ok r, st') ->
  exists v, obj_get (sourceCache st') (cache_key env p) = Some v /\
            r = option_map buf_toString v.
Proof.
  unfold readFile. unfold_M.
  destruct (obj_get (sourceCache st) (cache_key env p)) as [[b|]|] eqn:Hc.
  - intros H; inversion H; subst. eauto.
  - intros H; inversion H; subst. eauto.
  - intros H. readFile_miss_cases;
      repeat match goal with
      | H : context [if ?b then _ else _] |- _ => destruct b eqn:?
      end; simpl in *; inversion H; subst; simpl;
      eexists; (split; [apply obj_get_set_same | reflexivity]).
Qed.

Lemma cache_extends_refl st : cache_extends st st.
Proof. intros k v H; exact H. Qed.

Lemma cache_extends_trans s1 s2 s3 :
  cache_extends s1 s2 -> cache_extends s2 s3 -> cache_extends s1 s3.
Proof. intros H1 H2 k v H; auto. Qed.

Lemma keeps_ret {A} (a : A) : keeps_cache (ret a).
Proof. intros st r st' H; inversion H; subst; apply cache_extends_refl. Qed.

Lemma keeps_throw {A} e : keeps_cache (@throw A e).
Proof. intros st r st' H; inversion H; subst; apply cache_extends_refl. Qed.

Lemma keeps_bind {A B} (m : M A) (f : A -> M B) :
  keeps_cache m -> (forall a, keeps_cache (f a)) -> keeps_cache (bind m f).
Proof.
  intros Hm Hf st r st' H. unfold bind in H.
  destruct (m st) as [[a|e] s1] eqn:E.
  - eapply cache_extends_trans; [eapply Hm; eauto | eapply Hf; eauto].
  - inversion H; subst; eapply Hm; eauto.
Qed.

Lemma keeps_modify_other (f : St -> St) :
  (forall st, sourceCache (f st) = sourceCache st) -> keeps_cache (modify f).
Proof.
  intros Hf st r st' H; inversion H; subst. intros k v Hk. now rewrite Hf.
Qed.

(** A miss inserts at a key that was absent: the insert-if-absent discipline. *)
Lemma keeps_readFile env p : keeps_cache (readFile env p).
Proof.
  intros st r st' H. unfold readFile in H. unfold_M.
  destruct (obj_get (sourceCache st) (cache_key env p)) as [[b|]|] eqn:Hc.
  - inversion H; subst; apply cache_extends_refl.
  - inversion H; subst; apply cache_extends_refl.
  - readFile_miss_cases;
      repeat match goal with
      | H : context [if ?b then _ else _] |- _ => destruct b eqn:?
      end; simpl in *; inversion H; subst;
      try (intros k v' Hk; simpl; exact Hk);
      try (intros k v' Hk; simpl; rewrite obj_get_set;
           destruct (String.eqb (cache_key env p) k) eqn:E;
           [apply String.eqb_eq in E; subst; simpl in Hc; congruence | exact Hk]).
Qed.

Lemma keeps_same_cache {A} (m : M A) :
  (forall st r st', m st = (r, st') -> sourceCache st' = sourceCache st) ->
  keeps_cache m.
Proof. intros Hm st r st' H k v Hk. erewrite Hm; eauto. Qed.

Lemma keeps_lstatSync env p : keeps_cache (lstatSync env p).
Proof.
  apply keeps_same_cache; intros st r st' H. unfold lstatSync in H.
  destruct (fault env p); [|destruct (find_node env p); [|destruct (is_dir env p)]];
    inversion H; reflexivity.
Qed.

Lemma keeps_alloc : keeps_cache alloc.
Proof. apply keeps_same_cache; intros st r st' H; inversion H; reflexivity. Qed.

Lemma keeps_debug s : keeps_cache (debug s).
Proof. apply keeps_modify_other; reflexivity. Qed.

Lemma keeps_fromFsPath env p : keeps_cache (fromFsPath env p).
Proof.
  unfold fromFsPath, new_FileFsRef.
  apply keeps_bind; [apply keeps_lstatSync | intros m].
  apply keeps_bind; [apply keeps_alloc | intros; apply keeps_ret].
Qed.

Create HintDb cache.
#[local] Hint Resolve keeps_ret keeps_throw keeps_bind keeps_readFile keeps_lstatSync
  keeps_alloc keeps_debug keeps_fromFsPath : cache.

Lemma keeps_run_trace env t : keeps_cache (run_trace env t).
Proof.
  induction t as [| |p k IHk h IHh]; simpl; eauto with cache.
  intros st r st' H.
  destruct (readFile env p st) as [[x|e] st1] eqn:E;
    (eapply cache_extends_trans; [eapply keeps_readFile; exact E|]);
    [eapply IHk | eapply IHh]; exact H.
Qed.

Lemma keeps_collect_files env fps acc : keeps_cache (collect_files env fps acc).
Proof.
  revert acc; induction fps; intros acc; simpl; eauto with cache.
Qed.

Lemma keeps_forward_warnings ws : keeps_cache (forward_warnings ws).
Proof.
  induction ws as [|[w|] ws IH]; simpl; eauto with cache.
  apply keeps_bind; auto. destruct (String.eqb w ""); eauto with cache.
Qed.

#[local] Hint Resolve keeps_run_trace keeps_collect_files keeps_forward_warnings : cache.

Lemma keeps_package_function env apiDir e : keeps_cache (package_function env apiDir e).
Proof.
  destruct e as [funcName fileFsRef]. unfold package_function.
  apply keeps_bind; [eauto with cache | intros [[fl efl] ws]].
  apply keeps_bind; [eauto with cache | intros _].
  apply keeps_bind; [eauto with cache | intros lf].
  destruct (lambdaOptions env _); eauto with cache.
Qed.

#[local] Hint Resolve keeps_package_function : cache.

Lemma keeps_package_all env apiDir fns acc : keeps_cache (package_all env apiDir fns acc).
Proof.
  revert acc; induction fns; intros acc; simpl; eauto with cache.
Qed.

(** [C5] Path cache coherence.  Once a read of a path through the cache has
    returned (content or not-found), any later read of the same
    project-relative path, from a state in which the cache has only been
    extended, returns the same result and leaves the state untouched: no
    system call is logged, nothing is inserted.  Reads, whole traces and the
    whole per-function loop only ever extend the cache (insert-if-absent). *)
Theorem path_cache_second_read_coherent (env : Env) (p p' : path) (st0 st1 st2 : St)
    (r1 : option string) :
  readFile env p st0 = (Ok r1, st1) ->
  cache_extends st1 st2 ->
  cache_key env p' = cache_key env p ->
  readFile env p' st2 = (Ok r1, st2)
  /\ keeps_cache (readFile env p)
  /\ (forall t, keeps_cache (run_trace env t))
  /\ (forall apiDir fns acc, keeps_cache (package_all env apiDir fns acc)).
Proof.
  intros H1 Hext Hkey.
  destruct (readFile_ok_stored _ _ _ _ _ H1) as [v [Hv ->]].
  split; [|split; [|split]]; eauto with cache.
  2: intros; apply keeps_package_all.
  apply readFile_hit. rewrite Hkey. apply Hext, Hv.
Qed.

(** ** Exceptions are not caught between the cache and [build] *)

Lemma run_trace_read_exn env p k st e st1 :
  readFile env p st = (Exn e, st1) -> run_trace env (TRead p k) st = (Exn e, st1).
Proof. intros H. simpl. unfold bind. now rewrite H. Qed.

Lemma package_function_trace_exn env apiDir funcName fileFsRef st e st1 :
  run_trace env (nft env (fsPath fileFsRef)) st = (Exn e, st1) ->
  package_function env apiDir (funcName, fileFsRef) st = (Exn e, st1).
Proof. intros H. unfold package_function, bind. now rewrite H. Qed.

Lemma package_all_exn env apiDir fns1 f fns2 acc st acc1 st1 e st2 :
  package_all env apiDir fns1 acc st = (Ok acc1, st1) ->
  package_function env apiDir f st1 = (Exn e, st2) ->
  package_all env apiDir (fns1 ++ f :: fns2) acc st = (Exn e, st2).
Proof.
  revert acc st. induction fns1 as [|g fns1 IH]; intros acc st H1 H2; simpl in *.
  - inversion H1; subst. unfold bind. now rewrite H2.
  - unfold bind in *. destruct (package_function env apiDir g st) as [[r|e'] s'].
    + eapply IH; eauto.
    + discriminate.
Qed.

Lemma build_exn env st webDistFiles fns st1 e st2 :
  discover env st = (Ok (webDistFiles, fns), st1) ->
  package_all env (apiDir_of (apiProxyPath env)) fns [] st1 = (Exn e, st2) ->
  build env st = (Exn e, st2).
Proof. intros H1 H2. unfold build, bind. rewrite H1. now rewrite H2. Qed.

(** [C9] Not-found results are cached; other failures are thrown.  On a
    path not yet in the cache whose [readFileSync] fails with code [c]:
    for [ENOENT] or [EISDIR] the read yields [null], the cache records
    [null] for the path, and every later read of it (from any extension of
    that state) yields [null] again without a system call.  For any other
    code the read throws that error and caches nothing.  A trace reading
    the path without guarding the read throws it, while a guarded read
    hands it to the tracer, which goes on.  An exception of a function's
    trace makes the packaging of that function throw it, and an exception
    of the packaging of any function makes [build] throw it. *)
Theorem path_cache_not_found_cached_other_errors_fatal (env : Env) (p : path) (st : St)
    (c : string) :
  obj_get (sourceCache st) (cache_key env p) = None ->
  fst (readFileSync env p st) = Exn (ExnCode c) ->
  ((c = "ENOENT" \/ c = "EISDIR") ->
     exists st1, readFile env p st = (Ok None, st1)
       /\ obj_get (sourceCache st1) (cache_key env p) = Some None
       /\ forall st2, cache_extends st1 st2 -> readFile env p st2 = (Ok None, st2))
  /\ (c <> "ENOENT" -> c <> "EISDIR" ->
     exists st1, readFile env p st = (Exn (ExnCode c), st1)
       /\ obj_get (sourceCache st1) (cache_key env p) = None
       /\ (forall k, run_trace env (TRead p k) st = (Exn (ExnCode c), st1))
       /\ (forall k h, run_trace env (TReadCatch p k h) st = run_trace env (h (ExnCode c)) st1))
  /\ (forall apiDir funcName fileFsRef s e s',
        run_trace env (nft env (fsPath fileFsRef)) s = (Exn e, s') ->
        package_function env apiDir (funcName, fileFsRef) s = (Exn e, s'))
  /\ (forall st0 webDistFiles fns1 f fns2 acc1 s1 s2 e s3,
        discover env st0 = (Ok (webDistFiles, fns1 ++ f :: fns2), s1) ->
        package_all env (apiDir_of (apiProxyPath env)) fns1 [] s1 = (Ok acc1, s2) ->
        package_function env (apiDir_of (apiProxyPath env)) f s2 = (Exn e, s3) ->
        build env st0 = (Exn e, s3)).
Proof.
  intros Hc Hr.
  destruct (readFileSync env p st) as [r s1] eqn:E. simpl in Hr; subst r.
  assert (Hmiss : readFile env p st =
    (if String.eqb c "ENOENT" || String.eqb c "EISDIR"
     then (Ok None, set_sourceCache (cache_key env p) None s1)
     else (Exn (ExnCode c), s1))).
  { unfold readFile. unfold bind at 1, get. rewrite Hc.
    unfold try_catch, bind at 1. rewrite E.
    destruct (String.eqb c "ENOENT" || String.eqb c "EISDIR"); reflexivity. }
  split; [|split; [|split]].
  - intros Hcode. exists (set_sourceCache (cache_key env p) None s1).
    assert (Hb : (String.eqb c "ENOENT" || String.eqb c "EISDIR") = true).
    { destruct Hcode; subst; reflexivity. }
    rewrite Hb in Hmiss. split; [exact Hmiss|].
    assert (Hget : obj_get (sourceCache (set_sourceCache (cache_key env p) None s1))
                     (cache_key env p) = Some None) by apply obj_get_set_same.
    split; [exact Hget|].
    intros st2 Hext. apply (readFile_hit env p st2 None). apply Hext, Hget.
  - intros H1 H2. exists s1.
    assert (Hb : (String.eqb c "ENOENT" || String.eqb c "EISDIR") = false).
    { apply orb_false_intro; apply String.eqb_neq; assumption. }
    rewrite Hb in Hmiss. split; [exact Hmiss|].
    assert (Hs1 : sourceCache s1 = sourceCache st).
    { unfold readFileSync in E.
      destruct (fault env p); [|destruct (find_node env p); [|destruct (is_dir env p)]];
        inversion E; reflexivity. }
    split; [rewrite Hs1; exact Hc|].
    split; [intros k; apply run_trace_read_exn, Hmiss|].
    intros k h. cbn [run_trace]. now rewrite Hmiss.
  - intros. apply package_function_trace_exn; assumption.
  - intros st0 w fns1 f fns2 acc1 s1' s2 e s3 Hd Hp Hf.
    eapply build_exn; [exact Hd|]. eapply package_all_exn; eauto.
Qed.

(** ** Path strings *)

Lemma split_slash_nonnil s : split_slash s <> [].
Proof.
  induction s as [|c s IH]; simpl; [discriminate|].
  destruct (Ascii.eqb c "/"%char); [discriminate|].
  destruct (split_slash s); [contradiction|discriminate].
Qed.

Lemma split_slash_app a b :
  split_slash (append a (String "/"%char b)) = split_slash a ++ split_slash b.
Proof.
  induction a as [|c a IH]; simpl; [reflexivity|].
  rewrite IH. destruct (Ascii.eqb c "/"%char); [reflexivity|].
  pose proof (split_slash_nonnil a) as Hn.
  destruct (split_slash a) as [|h t]; [contradiction|reflexivity].
Qed.

Lemma split_slash_no_slash s : no_slash s = true -> split_slash s = [s].
Proof.
  induction s as [|c s IH]; simpl; [reflexivity|].
  intros H. apply andb_prop in H as [Hc Hs].
  apply negb_true_iff in Hc. rewrite Hc, IH by exact Hs. reflexivity.
Qed.

Lemma seg_ok_no_slash s : seg_ok s = true -> no_slash s = true.
Proof. unfold seg_ok; intros H; apply andb_prop in H; tauto. Qed.

Lemma seg_ok_nonempty s : seg_ok s = true -> s <> "".
Proof.
  unfold seg_ok; intros H E; subst; discriminate.
Qed.

Lemma seg_norm_ok s : seg_norm s = true -> seg_ok s = true.
Proof.
  unfold seg_norm; intros H. apply andb_prop in H as [H _]. apply andb_prop in H as [H _].
  exact H.
Qed.

Lemma split_slash_render segs :
  forallb no_slash segs = true -> segs <> [] -> split_slash (render segs) = segs.
Proof.
  induction segs as [|x [|y l] IH]; intros Hf Hne; [contradiction| |].
  - simpl in Hf. rewrite andb_true_r in Hf. simpl. now apply split_slash_no_slash.
  - simpl in Hf. apply andb_prop in Hf as [Hx Hl].
    change (render (x :: y :: l)) with (append x (String "/"%char (render (y :: l)))).
    rewrite split_slash_app, split_slash_no_slash by exact Hx.
    rewrite IH; [reflexivity| |discriminate]. exact Hl.
Qed.

Lemma forallb_seg_ok_no_slash segs :
  forallb seg_ok segs = true -> forallb no_slash segs = true.
Proof.
  induction segs; simpl; auto. intros H; apply andb_prop in H as [H1 H2].
  rewrite seg_ok_no_slash, IHsegs; auto.
Qed.

Lemma split_path_render segs :
  forallb seg_ok segs = true -> split_path (render segs) = segs.
Proof.
  intros H. destruct segs as [|x l]; [reflexivity|].
  unfold split_path. rewrite split_slash_render;
    [| apply forallb_seg_ok_no_slash; exact H | discriminate].
  clear - H. induction (x :: l) as [|y r IH]; [reflexivity|].
  simpl in *. apply andb_prop in H as [Hy Hr].
  destruct (String.eqb y "") eqn:E.
  - apply String.eqb_eq in E. exfalso; exact (seg_ok_nonempty y Hy E).
  - simpl. now rewrite IH.
Qed.

Lemma render_nonempty segs :
  forallb seg_ok segs = true -> segs <> [] -> render segs <> "".
Proof.
  destruct segs as [|x [|y l]]; intros H Hne; [contradiction| |].
  - simpl in *. rewrite andb_true_r in H. now apply seg_ok_nonempty.
  - simpl. destruct x; discriminate.
Qed.

Lemma starts_with_slash_render segs :
  forallb seg_ok segs = true -> starts_with_slash (render segs) = false.
Proof.
  intros H. destruct segs as [|x l]; [reflexivity|].
  simpl in H. apply andb_prop in H as [Hx _].
  pose proof (seg_ok_nonempty x Hx) as Hne. apply seg_ok_no_slash in Hx.
  destruct x as [|c x]; [contradiction|].
  simpl in Hx. apply andb_prop in Hx as [Hc _]. apply negb_true_iff in Hc.
  destruct l; simpl; exact Hc.
Qed.

Lemma forallb_removelast {A} (f : A -> bool) l :
  forallb f l = true -> forallb f (removelast l) = true.
Proof.
  induction l as [|x [|y l] IH]; simpl; auto.
  intros H; apply andb_prop in H as [Hx Hl]. simpl in IH.
  rewrite Hx; simpl. now apply IH.
Qed.

Lemma path_relative_app w r : path_relative w (w ++ r) = r.
Proof.
  induction w as [|x w IH]; [destruct r; reflexivity|].
  simpl. now rewrite String.eqb_refl.
Qed.

Lemma last_app_nonnil {A} (w r : list A) d : r <> [] -> last (w ++ r) d = last r d.
Proof.
  intros Hr. induction w as [|x w IH]; [reflexivity|].
  simpl. rewrite IH. destruct w; simpl; destruct r; [contradiction|reflexivity|reflexivity|reflexivity].
Qed.

Lemma parse_dir_render segs :
  forallb seg_ok segs = true -> parse_dir (render segs) = render (removelast segs).
Proof.
  intros H. unfold parse_dir. rewrite split_path_render, starts_with_slash_render; auto.
Qed.

Lemma parse_base_render segs :
  forallb seg_ok segs = true -> parse_base (render segs) = last segs "".
Proof. intros H. unfold parse_base. now rewrite split_path_render. Qed.

(** ** What one packaging step returns *)

Lemma package_function_result env apiDir funcName fileFsRef st n l st' :
  package_function env apiDir (funcName, fileFsRef) st = (Ok (n, l), st') ->
  n = outputName_of apiDir funcName
  /\ awsLambdaHandler l = getAWSLambdaHandler (relative_entrypoint env fileFsRef) "handler"
  /\ handler l = relative_entrypoint env fileFsRef.
Proof.
  intros H. unfold package_function, bind in H.
  destruct (run_trace env (nft env (fsPath fileFsRef)) st) as [[[[fl efl] ws]|e] s1];
    [|discriminate].
  destruct (forward_warnings ws s1) as [[u|e] s2]; [|discriminate].
  destruct (collect_files env (fl ++ efl) [] s2) as [[lf|e] s3]; [|discriminate].
  destruct (lambdaOptions env _) as [mem dur].
  inversion H; subst. simpl. auto.
Qed.

(** [C3] Output names.  A function's output name is [join(apiDir, name)]
    where [name] is the base name of the function file without its
    extension: the directory of a one-level-nested function is dropped, so
    [d/x] and [x] give the same output name.  [apiDir] is
    [web.apiProxyPath] of [redwood.toml] with one leading ['/'] removed,
    ["api"] when absent.  The name returned by the packaging step is this
    one. *)
Theorem output_name_is_api_dir_and_base_name (env : Env) (apiDir d x : string) :
  seg_ok d = true -> seg_ok x = true ->
  outputName_of apiDir (append d (String "/"%char x)) = outputName_of apiDir x
  /\ apiDir_of None = "api"
  /\ (forall s, apiDir_of (Some (String "/"%char s)) = s)
  /\ (forall funcName fileFsRef st n l st',
        package_function env apiDir (funcName, fileFsRef) st = (Ok (n, l), st') ->
        n = outputName_of apiDir funcName).
Proof.
  intros Hd Hx. split; [|split; [reflexivity|split]].
  - unfold outputName_of, parse_name.
    change (append d (String "/"%char x)) with (render [d; x]).
    change x with (render [x]) at 2.
    rewrite !parse_base_render; [reflexivity| |]; simpl; rewrite ?Hd, ?Hx; reflexivity.
  - intros s; reflexivity.
  - intros funcName fileFsRef st n l st' H.
    apply package_function_result in H; tauto.
Qed.

(** [C4] Handler reference.  For a function file at project-relative path
    [rel] (as [relative(workPath, fsPath)] gives it, so with its
    [api/dist/functions] prefix), [awsLambdaHandler] is the directory of
    [rel], [sep] (["/"]), the file name without its extension and
    [".handler"]: the build-output prefix is kept. *)
Theorem aws_lambda_handler_keeps_relative_directory (env : Env) (apiDir funcName : string)
    (fileFsRef : FileFsRef) (rel : list string) (st : St) (n : string) (l : Lambda) (st' : St) :
  fsPath fileFsRef = workPath env ++ rel ->
  forallb seg_ok rel = true ->
  removelast rel <> [] ->
  package_function env apiDir (funcName, fileFsRef) st = (Ok (n, l), st') ->
  awsLambdaHandler l =
    append (render (removelast rel)) (append sep (append (name_of (last rel "")) ".handler")).
Proof.
  intros Hp Hrel Hne H. apply package_function_result in H as [_ [-> _]].
  unfold relative_entrypoint. rewrite Hp, path_relative_app.
  unfold getAWSLambdaHandler, parse_name. rewrite parse_dir_render, parse_base_render by exact Hrel.
  destruct (String.eqb (render (removelast rel)) "") eqn:E.
  - apply String.eqb_eq in E. exfalso.
    exact (render_nonempty _ (forallb_removelast _ _ Hrel) Hne E).
  - reflexivity.
Qed.

(** ** Static outputs *)

Lemma substring_length s n m :
  String.length (substring n m s) = Nat.min m (String.length s - n).
Proof.
  revert n m. induction s as [|c s IH]; intros n m.
  - destruct n, m; simpl; lia.
  - destruct n as [|n], m as [|m]; simpl; try rewrite IH; try lia.
    destruct (String.length s - n); reflexivity.
Qed.

(** A base name whose [ext] is [.html] ends in [.html] and is longer than
    that: [basename(_, '.html')] removes exactly those five characters. *)
Lemma basename_suffix_html p :
  ext_of (parse_base p) = ".html" ->
  basename_suffix p ".html" =
    substring 0 (String.length (parse_base p) - 5) (parse_base p).
Proof.
  unfold basename_suffix. set (b := parse_base p). intros H.
  unfold ext_of in H.
  destruct (last_dot b) as [[|k]|]; try discriminate.
  destruct (String.eqb b "..") eqn:Hdd; [discriminate|].
  assert (Hlen := substring_length b (S k) (String.length b - S k)).
  rewrite H in Hlen. simpl in Hlen.
  assert (Hk : String.length b = S k + 5) by lia.
  unfold ends_with. simpl String.length.
  replace (String.length b - 5) with (S k) by lia.
  replace 5 with (String.length b - S k) at 2 by lia.
  rewrite H, String.eqb_refl.
  assert (Hle : Nat.leb 5 (String.length b) = true) by (apply Nat.leb_le; lia).
  rewrite Hle.
  destruct (String.eqb b ".html") eqn:Hb.
  - apply String.eqb_eq in Hb. rewrite Hb in Hk. simpl in Hk. lia.
  - reflexivity.
Qed.

Lemma norm_abs_fold l acc :
  forallb seg_norm l = true -> fold_left norm_abs_step l acc = rev l ++ acc.
Proof.
  revert acc. induction l as [|x l IH]; intros acc H; [reflexivity|].
  simpl in H. apply andb_prop in H as [Hx Hl]. simpl.
  unfold norm_abs_step at 2.
  unfold seg_norm, seg_ok in Hx.
  destruct (String.eqb x "") eqn:E1; [rewrite !andb_false_r in Hx; simpl in Hx; discriminate|].
  destruct (String.eqb x ".") eqn:E2; [rewrite andb_false_r in Hx; simpl in Hx; discriminate|].
  destruct (String.eqb x "..") eqn:E3; [rewrite andb_false_r in Hx; discriminate|].
  simpl. rewrite IH by exact Hl. now rewrite <- app_assoc.
Qed.

Lemma normalize_abs_normal l : forallb seg_norm l = true -> normalize_abs l = l.
Proof.
  intros H. unfold normalize_abs. rewrite norm_abs_fold by exact H.
  now rewrite app_nil_r, rev_involutive.
Qed.

Lemma forallb_seg_norm_ok l : forallb seg_norm l = true -> forallb seg_ok l = true.
Proof.
  induction l; simpl; auto. intros H; apply andb_prop in H as [H1 H2].
  rewrite seg_norm_ok, IHl; auto.
Qed.

Lemma strip_prefix_app dir p rel : strip_prefix dir p = Some rel -> p = dir ++ rel.
Proof.
  revert p. induction dir as [|d dir IH]; intros p H; simpl in H.
  - simpl; congruence.
  - destruct p as [|x p]; [discriminate|].
    destruct (String.eqb d x) eqn:E; [|discriminate].
    apply String.eqb_eq in E; subst. simpl. f_equal. now apply IH.
Qed.

Lemma In_obj_set {V} (o : obj V) k v k' v' :
  In (k', v') (obj_set o k v) -> In (k', v') o \/ (k', v') = (k, v).
Proof.
  induction o as [|[k0 v0] o IH]; simpl; intros H.
  - destruct H as [H|[]]; right; congruence.
  - destruct (String.eqb k0 k) eqn:E.
    + apply String.eqb_eq in E; subst. destruct H as [H|H]; [right; congruence|auto].
    + destruct H as [H|H]; [auto|]. destruct (IH H); auto.
Qed.

(** Every entry [glob] returns is keyed by the path of its file relative to
    the directory searched. *)
Lemma glob_nodes_entries dir matches ns acc st out st' :
  glob_nodes dir matches ns acc st = (Ok out, st') ->
  (forall k r, In (k, r) acc -> exists rel, k = render rel /\ fsPath r = dir ++ rel) ->
  forall k r, In (k, r) out -> exists rel, k = render rel /\ fsPath r = dir ++ rel.
Proof.
  revert acc st. induction ns as [|n ns IH]; intros acc st H Hacc; simpl in H.
  - inversion H; subst; exact Hacc.
  - destruct (strip_prefix dir (node_path n)) as [rel|] eqn:Hs; [|eapply IH; eauto].
    destruct (matches rel); [|eapply IH; eauto].
    unfold new_FileFsRef, bind, alloc, ret in H. simpl in H.
    eapply IH; [exact H|]. intros k r Hin.
    destruct (In_obj_set _ _ _ _ _ Hin) as [Hin'|Heq]; [now apply Hacc|].
    inversion Heq; subst. exists rel. split; [reflexivity|].
    simpl. now apply strip_prefix_app.
Qed.

Lemma rev_tl_rev {A} (l : list A) : rev (tl (rev l)) = removelast l.
Proof.
  induction l as [|x l _] using rev_ind; [reflexivity|].
  rewrite rev_app_distr, removelast_last. simpl. apply rev_involutive.
Qed.

Lemma normalize_abs_dot l : forallb seg_norm l = true -> normalize_abs (l ++ ["."]) = l.
Proof.
  intros H. unfold normalize_abs. rewrite fold_left_app, (norm_abs_fold l) by exact H.
  rewrite app_nil_r. change (rev (norm_abs_step (rev l) ".") = l). apply rev_involutive.
Qed.

Lemma normalize_abs_dotdot l :
  forallb seg_norm l = true -> normalize_abs (l ++ [".."]) = removelast l.
Proof.
  intros H. unfold normalize_abs. rewrite fold_left_app, (norm_abs_fold l) by exact H.
  rewrite app_nil_r. change (rev (tl (rev l)) = removelast l). apply rev_tl_rev.
Qed.

Lemma path_relative_removelast w : w <> [] -> path_relative w (removelast w) = [".."].
Proof.
  induction w as [|x [|y w] IH]; intros Hne; [contradiction|reflexivity|].
  change (removelast (x :: y :: w)) with (x :: removelast (y :: w)).
  simpl path_relative at 1. rewrite String.eqb_refl. apply IH. discriminate.
Qed.

(** The key and the reference written for an [.html] file, before the
    stripped base name is normalised by [join]. *)
Lemma static_entry_html webDist rel f :
  fsPath f = webDist ++ rel -> rel <> [] -> forallb seg_ok rel = true ->
  ext_of (last rel "") = ".html" ->
  static_entry webDist (render rel, f) =
    (render (path_relative webDist
       (normalize_abs (webDist ++ removelast rel
          ++ split_slash (substring 0 (String.length (last rel "") - 5) (last rel ""))))),
     mkFileFsRef (ref_id f) (fsPath f) (ref_mode f) (Some "text/html; charset=utf-8")).
Proof.
  intros Hp Hne Hr Hext.
  assert (Hbase : path_base (fsPath f) = last rel "").
  { unfold path_base. rewrite Hp. now apply last_app_nonnil. }
  unfold static_entry. rewrite Hbase, Hext. simpl negb. cbv iota.
  rewrite basename_suffix_html; rewrite parse_base_render by exact Hr; [|exact Hext].
  unfold path_dir, path_join. rewrite Hp, removelast_app by exact Hne.
  now rewrite <- app_assoc.
Qed.

(** [C7] Static request paths.  [glob] keys every static file by its path
    [rel] relative to [web/dist].  The key written for that file is [rel]
    itself, and the file reference unchanged, when the [ext] of its base
    name is not [.html].  When it is [.html], the content type is set to
    [text/html; charset=utf-8] and the key is [rel] with the last five
    characters ([.html]) of its base name removed, what is left being
    joined as a path segment: an ordinary segment stays; ["."] (a file
    named [..html]) gives the file's directory; [".."] (a file named
    [...html]) gives that directory's parent, or [".."] for a file at the
    top of [web/dist]. *)
Theorem static_request_path_and_content_type (webDist rel : list string)
    (fileFsRef : FileFsRef) :
  fsPath fileFsRef = webDist ++ rel -> rel <> [] ->
  forallb seg_norm webDist = true -> forallb seg_norm rel = true ->
  (ext_of (last rel "") <> ".html" ->
     static_entry webDist (render rel, fileFsRef) = (render rel, fileFsRef))
  /\ (ext_of (last rel "") = ".html" ->
     seg_norm (substring 0 (String.length (last rel "") - 5) (last rel "")) = true ->
     static_entry webDist (render rel, fileFsRef) =
       (render (removelast rel ++ [substring 0 (String.length (last rel "") - 5) (last rel "")]),
        mkFileFsRef (ref_id fileFsRef) (fsPath fileFsRef) (ref_mode fileFsRef)
                    (Some "text/html; charset=utf-8")))
  /\ (ext_of (last rel "") = ".html" ->
     snd (static_entry webDist (render rel, fileFsRef)) =
       mkFileFsRef (ref_id fileFsRef) (fsPath fileFsRef) (ref_mode fileFsRef)
                   (Some "text/html; charset=utf-8"))
  /\ (ext_of (last rel "") = ".html" ->
     substring 0 (String.length (last rel "") - 5) (last rel "") = "." ->
     fst (static_entry webDist (render rel, fileFsRef)) = render (removelast rel))
  /\ (ext_of (last rel "") = ".html" ->
     substring 0 (String.length (last rel "") - 5) (last rel "") = ".." ->
     removelast rel <> [] ->
     fst (static_entry webDist (render rel, fileFsRef)) = render (removelast (removelast rel)))
  /\ (ext_of (last rel "") = ".html" ->
     substring 0 (String.length (last rel "") - 5) (last rel "") = ".." ->
     removelast rel = [] -> webDist <> [] ->
     fst (static_entry webDist (render rel, fileFsRef)) = "..")
  /\ (forall env dir st out st' k r,
        glob env pat_all dir st = (Ok out, st') -> In (k, r) out ->
        exists rel', k = render rel' /\ fsPath r = dir ++ rel').
Proof.
  intros Hp Hne Hw Hr.
  pose proof (forallb_seg_norm_ok _ Hr) as Hok.
  pose proof (forallb_removelast _ _ Hr) as Hrl.
  assert (Hwrl : forallb seg_norm (webDist ++ removelast rel) = true)
    by (rewrite forallb_app, Hw; exact Hrl).
  split; [|split; [|split; [|split; [|split; [|split]]]]].
  - intros Hext. unfold static_entry. unfold path_base. rewrite Hp, last_app_nonnil by exact Hne.
    destruct (String.eqb (ext_of (last rel "")) ".html") eqn:E;
      [apply String.eqb_eq in E; contradiction | reflexivity].
  - intros Hext Hs. rewrite static_entry_html by assumption.
    set (s := substring 0 (String.length (last rel "") - 5) (last rel "")) in *.
    rewrite (split_slash_no_slash s) by (apply seg_ok_no_slash, seg_norm_ok, Hs).
    rewrite normalize_abs_normal.
    + rewrite path_relative_app. reflexivity.
    + rewrite app_assoc, forallb_app, Hwrl. simpl. now rewrite Hs.
  - intros Hext. now rewrite static_entry_html.
  - intros Hext Hs. rewrite static_entry_html by assumption. rewrite Hs. simpl fst.
    rewrite app_assoc. change (split_slash ".") with ["."].
    rewrite normalize_abs_dot by exact Hwrl. now rewrite path_relative_app.
  - intros Hext Hs Hne'. rewrite static_entry_html by assumption. rewrite Hs. simpl fst.
    rewrite app_assoc. change (split_slash "..") with [".."].
    rewrite normalize_abs_dotdot by exact Hwrl.
    rewrite removelast_app by exact Hne'. now rewrite path_relative_app.
  - intros Hext Hs Hnil Hwne. rewrite static_entry_html by assumption. rewrite Hs, Hnil. simpl fst.
    change (split_slash "..") with [".."].
    rewrite normalize_abs_dotdot by exact Hw.
    now rewrite path_relative_removelast.
  - intros env dir st out st' k r H Hin.
    eapply glob_nodes_entries; [exact H| |exact Hin]. intros ? ? [].
Qed.

(** ** Output objects *)

Lemma obj_set_set {V} (o : obj V) k v1 v2 : obj_set (obj_set o k v1) k v2 = obj_set o k v2.
Proof.
  induction o as [|[k' v'] o IH]; simpl.
  - now rewrite String.eqb_refl.
  - destruct (String.eqb k' k) eqn:E; simpl; rewrite E; [reflexivity|now rewrite IH].
Qed.

Lemma obj_get_not_in {V} (o : obj V) k : ~ In k (map fst o) -> obj_get o k = None.
Proof.
  induction o as [|[k' v'] o IH]; simpl; intros H; [reflexivity|].
  destruct (String.eqb k' k) eqn:E.
  - apply String.eqb_eq in E; subst; tauto.
  - apply IH; tauto.
Qed.

Lemma obj_get_spread {V} (a b : obj V) k :
  NoDup (map fst b) ->
  obj_get (obj_spread a b) k =
    match obj_get b k with Some v => Some v | None => obj_get a k end.
Proof.
  unfold obj_spread. revert a. induction b as [|[k' v'] b IH]; intros a Hnd; [reflexivity|].
  simpl in *. inversion Hnd as [|? ? Hnin Hnd']; subst.
  rewrite IH by exact Hnd'.
  destruct (String.eqb k' k) eqn:E.
  - apply String.eqb_eq in E; subst. rewrite obj_get_not_in by exact Hnin.
    apply obj_get_set_same.
  - destruct (obj_get b k); [reflexivity|].
    apply obj_get_set_other. intro; subst; now rewrite String.eqb_refl in E.
Qed.

Lemma package_all_fold env apiDir fns acc st out st' :
  package_all env apiDir fns acc st = (Ok out, st') ->
  exists rs, map fst rs = map (fun e => outputName_of apiDir (fst e)) fns
    /\ out = fold_left (fun o r => obj_set o (fst r) (snd r)) rs acc.
Proof.
  revert acc st. induction fns as [|[funcName fileFsRef] fns IH]; intros acc st H;
    cbn [package_all] in H.
  - inversion H; subst. exists []. split; reflexivity.
  - unfold bind in H.
    destruct (package_function env apiDir (funcName, fileFsRef) st) as [[[n l]|e] s1] eqn:E;
      [|discriminate].
    apply package_function_result in E as [Hn _].
    destruct (IH _ _ H) as [rs [Hrs Hout]].
    exists ((n, l) :: rs). simpl. split; [congruence|exact Hout].
Qed.

Lemma build_ok_shape env st m st' :
  build env st = (Ok m, st') ->
  exists webDistFiles fns s1 lambdaOutputs s2,
    discover env st = (Ok (webDistFiles, fns), s1)
    /\ package_all env (apiDir_of (apiProxyPath env)) fns [] s1 = (Ok lambdaOutputs, s2)
    /\ transformRoutes env (defaultRoutesNowConfig (fallbackHtmlPage env)) = inl (routes m)
    /\ output m = obj_spread (map as_static (staticOutputs_of (webDistPath env) webDistFiles))
                             (map as_lambda lambdaOutputs).
Proof.
  intros H. unfold build, bind in H.
  destruct (discover env st) as [[[w fns]|e] s1] eqn:Hd; [|discriminate].
  destruct (package_all env _ fns [] s1) as [[lo|e] s2] eqn:Hp; [|discriminate].
  destruct (transformRoutes env _) as [rs|msg] eqn:Ht; [|discriminate].
  inversion H; subst. exists w, fns, s1, lo. eexists.
  repeat split; first [reflexivity | eassumption].
Qed.

(** [C1] No collision check.  Writing an output name a second time keeps
    only the later value; the lambda outputs are the plain sequence of
    writes of the packaging results in discovery order; the final output is
    [{ ...staticOutputs, ...lambdaOutputs }], in which a lambda replaces a
    static file with the same key.  A collision never makes the run fail:
    packaging the functions throws only when packaging one of them throws,
    and when discovery, every packaging and the route transformation
    succeed, [build] returns that merged output. *)
Theorem outputs_overwrite_without_collision_check (env : Env) :
  (forall V (o : obj V) k v1 v2, obj_set (obj_set o k v1) k v2 = obj_set o k v2)
  /\ (forall V (a b : obj V) k, NoDup (map fst b) ->
        obj_get (obj_spread a b) k =
          match obj_get b k with Some v => Some v | None => obj_get a k end)
  /\ (forall apiDir fns acc st out st',
        package_all env apiDir fns acc st = (Ok out, st') ->
        exists rs, map fst rs = map (fun e => outputName_of apiDir (fst e)) fns
          /\ out = fold_left (fun o r => obj_set o (fst r) (snd r)) rs acc)
  /\ (forall st m st', build env st = (Ok m, st') ->
        exists webDistFiles fns s1 lambdaOutputs s2,
          discover env st = (Ok (webDistFiles, fns), s1)
          /\ package_all env (apiDir_of (apiProxyPath env)) fns [] s1 = (Ok lambdaOutputs, s2)
          /\ output m = obj_spread (map as_static (staticOutputs_of (webDistPath env) webDistFiles))
                                   (map as_lambda lambdaOutputs))
  /\ (forall apiDir fns acc st e st',
        package_all env apiDir fns acc st = (Exn e, st') ->
        exists fns1 f fns2 acc1 s1,
          fns = fns1 ++ f :: fns2
          /\ package_all env apiDir fns1 acc st = (Ok acc1, s1)
          /\ package_function env apiDir f s1 = (Exn e, st'))
  /\ (forall st webDistFiles fns s1 lambdaOutputs s2 rs,
        discover env st = (Ok (webDistFiles, fns), s1) ->
        package_all env (apiDir_of (apiProxyPath env)) fns [] s1 = (Ok lambdaOutputs, s2) ->
        transformRoutes env (defaultRoutesNowConfig (fallbackHtmlPage env)) = inl rs ->
        build env st =
          (Ok (mkBuildResult
                 (obj_spread (map as_static (staticOutputs_of (webDistPath env) webDistFiles))
                             (map as_lambda lambdaOutputs)) rs), s2)).
Proof.
  split; [intros; apply obj_set_set|].
  split; [intros; now apply obj_get_spread|].
  split; [intros; eapply package_all_fold; eauto|].
  split; [|split].
  - intros st m st' H. apply build_ok_shape in H as (w & fns & s1 & lo & s2 & H1 & H2 & _ & H4).
    exists w, fns, s1, lo, s2. auto.
  - intros apiDir fns. induction fns as [|f fns IH]; intros acc st e st' H;
      cbn [package_all] in H; [discriminate|].
    unfold bind in H.
    destruct (package_function env apiDir f st) as [[r|e'] s1] eqn:E.
    + destruct (IH _ _ _ _ H) as (fns1 & f' & fns2 & acc1 & s2 & -> & H1 & H2).
      exists (f :: fns1), f', fns2, acc1, s2. split; [reflexivity|]. split; [|exact H2].
      cbn [package_all]. unfold bind. now rewrite E.
    + inversion H; subst. exists [], f, fns, acc, st. auto.
  - intros st w fns s1 lo s2 rs Hd Hp Ht. unfold build, bind. rewrite Hd. simpl.
    rewrite Hp, Ht. reflexivity.
Qed.

(** [C2] No per-function recovery.  When the packaging of any function
    throws, after
    the functions before it succeeded, [build] throws the same exception:
    no output object is returned, the functions already packaged included. *)
Theorem packaging_failure_aborts_build (env : Env) (st0 : St)
    (webDistFiles fns1 : obj FileFsRef) (f : string * FileFsRef) (fns2 : obj FileFsRef)
    (acc1 : obj Lambda) (s1 s2 : St) (e : exn) (s3 : St) :
  discover env st0 = (Ok (webDistFiles, fns1 ++ f :: fns2), s1) ->
  package_all env (apiDir_of (apiProxyPath env)) fns1 [] s1 = (Ok acc1, s2) ->
  package_function env (apiDir_of (apiProxyPath env)) f s2 = (Exn e, s3) ->
  build env st0 = (Exn e, s3).
Proof.
  intros Hd Hp Hf. eapply build_exn; [exact Hd|]. eapply package_all_exn; eauto.
Qed.

(** [C8] The fallback route.  When [build] returns, its routes are what the
    route transformer makes of a configuration with exactly one rewrite,
    from the catch-all source pattern, which matches every path, to [/200] when [web/dist/200.html]
    exists and to [/index] otherwise, with [cleanUrls] on and
    [trailingSlash] off. *)
Theorem fallback_route_single_catch_all (env : Env) (st : St) (m : BuildResult) (st' : St) :
  build env st = (Ok m, st') ->
  transformRoutes env (defaultRoutesNowConfig (fallbackHtmlPage env)) = inl (routes m)
  /\ rewrites (defaultRoutesNowConfig (fallbackHtmlPage env)) =
       [mkRewrite "/(.*)"
          (if existsSync env (path_join (webDistPath env) ["200.html"]) then "/200" else "/index")]
  /\ cleanUrls (defaultRoutesNowConfig (fallbackHtmlPage env)) = true
  /\ trailingSlash (defaultRoutesNowConfig (fallbackHtmlPage env)) = false.
Proof.
  intros H. apply build_ok_shape in H as (_ & _ & _ & _ & _ & _ & _ & Ht & _).
  split; [exact Ht|]. split; [reflexivity|]. split; reflexivity.
Qed.

(** [C10] Warnings.  Forwarding the tracer's warnings never throws; it
    passes to [debug], in order, the [stack] of each warning whose [stack]
    is a non-empty string, with its first ["Error: "] replaced by
    ["Warning: "], and nothing for the other warnings. *)
Theorem forward_warnings_debugs_nonempty_stacks (ws : list Warning) (st : St) :
  forward_warnings ws st =
    (Ok tt, mkSt (sourceCache st) (fsCache st) (next_id st) (fs_log st)
                 (debug_log st ++ map (replace_first "Error: " "Warning: ") (warning_stacks ws))).
Proof.
  revert st. induction ws as [|[s|] ws IH]; intros st; simpl.
  - destruct st; simpl. now rewrite app_nil_r.
  - unfold bind. destruct (String.eqb s "") eqn:E.
    + apply IH.
    + unfold debug, modify. rewrite IH. simpl. now rewrite <- app_assoc.
  - apply IH.
Qed.

(* ------------------------------------------------------------------ *)
(** ** Concrete runs *)

Lemma path_cache_second_read_coherent_witness :
  readFile env_shared ["w"; "api"; "dist"; "lib"; "db.js"]
    (snd (readFile env_shared ["w"; "api"; "dist"; "lib"; "db.js"] init_st))
  = (Ok (Some "module.exports = {}"),
     snd (readFile env_shared ["w"; "api"; "dist"; "lib"; "db.js"] init_st)).
Proof.
  refine (proj1 (path_cache_second_read_coherent env_shared
            ["w"; "api"; "dist"; "lib"; "db.js"] ["w"; "api"; "dist"; "lib"; "db.js"] init_st
            (snd (readFile env_shared ["w"; "api"; "dist"; "lib"; "db.js"] init_st))
            (snd (readFile env_shared ["w"; "api"; "dist"; "lib"; "db.js"] init_st))
            (Some "module.exports = {}") _ _ _)).
  - vm_compute. reflexivity.
  - apply cache_extends_refl.
  - reflexivity.
Defined.

Lemma path_cache_not_found_cached_other_errors_fatal_witness :
  exists st1, readFile env_unreadable ["w"; "api"; "dist"; "lib"; "secret.js"] init_st
              = (Exn (ExnCode "EACCES"), st1).
Proof.
  destruct (path_cache_not_found_cached_other_errors_fatal env_unreadable
              ["w"; "api"; "dist"; "lib"; "secret.js"] init_st "EACCES"
              ltac:(reflexivity) ltac:(vm_compute; reflexivity)) as [_ [H _]].
  destruct (H ltac:(discriminate) ltac:(discriminate)) as [st1 [Hr _]].
  exists st1. exact Hr.
Defined.

Lemma guarded_read_error_does_not_abort_build :
  fst (readFile env_guarded ["w"; "api"; "dist"; "lib"; "secret.js"] init_st)
    = Exn (ExnCode "EACCES")
  /\ match fst (build env_guarded init_st) with
     | Ok m => map fst (output m) = ["index"; "api/a"; "api/b"]
     | Exn _ => False
     end.
Proof. vm_compute. split; reflexivity. Qed.

Lemma colliding_function_outputs_overwrite :
  match fst (discover env_bazinga init_st), fst (build env_bazinga init_st) with
  | Ok (_, fns), Ok m =>
      map fst fns = ["bazinga.js"; "bazinga/bazinga.js"]
      /\ map fst (output m) = ["index"; "api/bazinga"]
      /\ match obj_get (output m) "api/bazinga" with
         | Some (OLambda l) => handler l = "api/dist/functions/bazinga/bazinga.js"
         | _ => False
         end
  | _, _ => False
  end.
Proof. vm_compute. repeat split. Qed.

Lemma missing_traced_file_aborts_build :
  fst (build env_missing_asset init_st) = Exn (ExnCode "ENOENT")
  /\ match fst (package_function env_missing_asset "api"
                  ("a.js", mkFileFsRef 1 ["w"; "api"; "dist"; "functions"; "a.js"] 33188 None)
                  init_st) with
     | Ok _ => True
     | Exn _ => False
     end
  /\ In ("lstatSync", ["w"; "api"; "dist"; "assets"; "logo.png"])
        (fs_log (snd (build env_missing_asset init_st)))
  /\ ~ In ("readFileSync", ["w"; "api"; "dist"; "assets"; "logo.png"])
        (fs_log (snd (build env_missing_asset init_st))).
Proof.
  vm_compute. split; [reflexivity|]. split; [exact I|]. split.
  - tauto.
  - intros H. repeat (destruct H as [H|H]; [discriminate H|]). exact H.
Qed.

Lemma packaging_failure_aborts_build_witness :
  build env_unreadable init_st = (Exn (ExnCode "EACCES"), snd (build env_unreadable init_st)).
Proof.
  apply (packaging_failure_aborts_build env_unreadable init_st
    [("index.html", mkFileFsRef 0 ["w"; "web"; "dist"; "index.html"] 33188 None)]
    [("a.js", mkFileFsRef 1 ["w"; "api"; "dist"; "functions"; "a.js"] 33188 None)]
    ("b.js", mkFileFsRef 2 ["w"; "api"; "dist"; "functions"; "b.js"] 33188 None) []
    (match fst (package_all env_unreadable "api"
                  [("a.js", mkFileFsRef 1 ["w"; "api"; "dist"; "functions"; "a.js"] 33188 None)]
                  [] (snd (discover env_unreadable init_st))) with
     | Ok o => o
     | Exn _ => []
     end)
    (snd (discover env_unreadable init_st))
    (snd (package_all env_unreadable "api"
            [("a.js", mkFileFsRef 1 ["w"; "api"; "dist"; "functions"; "a.js"] 33188 None)]
            [] (snd (discover env_unreadable init_st))))
    (ExnCode "EACCES")).
  all: vm_compute; reflexivity.
Defined.

Lemma nested_function_output_name_drops_directory :
  match fst (discover env_bazinga init_st) with
  | Ok (_, fns) =>
      map fst fns = ["bazinga.js"; "bazinga/bazinga.js"]
      /\ map (fun e => outputName_of (apiDir_of None) (fst e)) fns = ["api/bazinga"; "api/bazinga"]
  | Exn _ => False
  end
  /\ outputName_of (apiDir_of None) "bazinga/bazinga.js" <> "api/bazinga/bazinga".
Proof. split; [vm_compute; split; reflexivity | vm_compute; discriminate]. Qed.

Lemma output_name_is_api_dir_and_base_name_witness :
  outputName_of "api" "bazinga/bazinga.js" = outputName_of "api" "bazinga.js".
Proof.
  exact (proj1 (output_name_is_api_dir_and_base_name env_bazinga "api" "bazinga" "bazinga.js"
                  eq_refl eq_refl)).
Defined.

Lemma graphql_handler_keeps_dist_prefix :
  match fst (build env_spa init_st) with
  | Ok m =>
      match obj_get (output m) "api/graphql" with
      | Some (OLambda l) =>
          awsLambdaHandler l = "api/dist/functions/graphql.handler"
          /\ awsLambdaHandler l <> "graphql.handler"
      | _ => False
      end
  | Exn _ => False
  end.
Proof. vm_compute. split; [reflexivity|discriminate]. Qed.

Lemma aws_lambda_handler_keeps_relative_directory_witness :
  exists n l st',
    package_function env_spa "api"
      ("graphql.js", mkFileFsRef 2 ["w"; "api"; "dist"; "functions"; "graphql.js"] 33188 None)
      init_st = (Ok (n, l), st')
    /\ awsLambdaHandler l = "api/dist/functions/graphql.handler".
Proof.
  destruct (package_function env_spa "api"
      ("graphql.js", mkFileFsRef 2 ["w"; "api"; "dist"; "functions"; "graphql.js"] 33188 None)
      init_st) as [[[n l]|e] st'] eqn:E; [|vm_compute in E; discriminate].
  exists n, l, st'. split; [reflexivity|].
  rewrite (aws_lambda_handler_keeps_relative_directory env_spa "api" "graphql.js"
             (mkFileFsRef 2 ["w"; "api"; "dist"; "functions"; "graphql.js"] 33188 None)
             ["api"; "dist"; "functions"; "graphql.js"] init_st n l st'
             eq_refl eq_refl ltac:(discriminate) E).
  reflexivity.
Defined.

Lemma shared_dependency_fresh_file_per_function :
  let '(r, st) := build env_shared init_st in
  match lambda_file r "api/a" "api/dist/lib/db.js",
        lambda_file r "api/b" "api/dist/lib/db.js",
        obj_get (fsCache st) "api/dist/lib/db.js" with
  | Some fa, Some fb, Some fc =>
      file_id fa <> file_id fb /\ file_id fa <> file_id fc /\ file_id fb <> file_id fc
  | _, _, _ => False
  end.
Proof. vm_compute. split; [|split]; intros H; inversion H. Qed.

Lemma double_html_extension_keeps_html_key :
  fst (static_entry ["w"; "web"; "dist"]
         ("a.html.html", mkFileFsRef 0 ["w"; "web"; "dist"; "a.html.html"] 33188 None))
    = "a.html"
  /\ ends_with ".html" "a.html" = true
  /\ fst (static_entry ["w"; "web"; "dist"]
           ("blog/..html", mkFileFsRef 0 ["w"; "web"; "dist"; "blog"; "..html"] 33188 None))
      = "blog"
  /\ fst (static_entry ["w"; "web"; "dist"]
           ("blog/...html", mkFileFsRef 0 ["w"; "web"; "dist"; "blog"; "...html"] 33188 None))
      = ""
  /\ fst (static_entry ["w"; "web"; "dist"]
           ("...html", mkFileFsRef 0 ["w"; "web"; "dist"; "...html"] 33188 None))
      = "..".
Proof. vm_compute. repeat split; reflexivity. Qed.

Lemma static_request_path_and_content_type_witness :
  static_entry ["w"; "web"; "dist"]
    ("blog/post.html", mkFileFsRef 0 ["w"; "web"; "dist"; "blog"; "post.html"] 33188 None)
  = ("blog/post",
     mkFileFsRef 0 ["w"; "web"; "dist"; "blog"; "post.html"] 33188
       (Some "text/html; charset=utf-8")).
Proof.
  exact (proj1 (proj2 (static_request_path_and_content_type ["w"; "web"; "dist"]
           ["blog"; "post.html"]
           (mkFileFsRef 0 ["w"; "web"; "dist"; "blog"; "post.html"] 33188 None)
           eq_refl ltac:(discriminate) eq_refl eq_refl)) eq_refl eq_refl).
Defined.

Lemma fallback_route_single_catch_all_witness :
  exists m st', build env_spa init_st = (Ok m, st')
    /\ rewrites (defaultRoutesNowConfig (fallbackHtmlPage env_spa)) = [mkRewrite "/(.*)" "/200"].
Proof.
  destruct (build env_spa init_st) as [[m|e] st'] eqn:E; [|vm_compute in E; discriminate].
  exists m, st'. split; [reflexivity|].
  destruct (fallback_route_single_catch_all env_spa init_st m st' E) as [_ [H _]].
  rewrite H. vm_compute. reflexivity.
Defined.

Lemma stackless_warning_not_forwarded :
  forward_warnings [None; Some ""] init_st = (Ok tt, init_st)
  /\ debug_log (snd (forward_warnings [None; Some ""] init_st)) = [].
Proof. split; reflexivity. Qed.

(* ================================================================== *)
(** * Further properties of the code *)

(** ** Objects and the [VERCEL_] mirror *)

Lemma obj_get_in {V} (o : obj V) k v : obj_get o k = Some v -> In k (map fst o).
Proof.
  induction o as [|[k' v'] o IH]; simpl; [discriminate|].
  destruct (String.eqb k' k) eqn:E; [apply String.eqb_eq in E; auto|auto].
Qed.

Lemma in_obj_get {V} (o : obj V) k : In k (map fst o) -> exists v, obj_get o k = Some v.
Proof.
  induction o as [|[k' v'] o IH]; simpl; [tauto|].
  destruct (String.eqb k' k) eqn:E; [eauto|].
  intros [H|H]; [subst; now rewrite String.eqb_refl in E|auto].
Qed.

Lemma redwood_env_key_inj a b : redwood_env_key a = redwood_env_key b -> a = b.
Proof. unfold redwood_env_key; simpl; intros H; inversion H; reflexivity. Qed.

Lemma redwood_env_key_not_vercel j k :
  String.prefix "VERCEL_" k = true -> redwood_env_key j <> k.
Proof. intros H E; subst; discriminate H. Qed.

Lemma mirror_one_mono env key k v :
  obj_get env k = Some v -> obj_get (mirror_one env key) k = Some v.
Proof.
  intros H; unfold mirror_one.
  destruct (obj_get env (redwood_env_key key)) eqn:E; [exact H|].
  rewrite obj_get_set. destruct (String.eqb (redwood_env_key key) k) eqn:E2; [|exact H].
  apply String.eqb_eq in E2; subst; congruence.
Qed.

Lemma mirror_one_vercel env key k :
  String.prefix "VERCEL_" k = true -> obj_get (mirror_one env key) k = obj_get env k.
Proof.
  intros H; unfold mirror_one.
  destruct (obj_get env (redwood_env_key key)); [reflexivity|].
  apply obj_get_set_other, redwood_env_key_not_vercel, H.
Qed.

Lemma mirror_one_self env key :
  obj_get (mirror_one env key) (redwood_env_key key)
  = Some (match obj_get env (redwood_env_key key) with
          | Some w => w
          | None => match obj_get env key with Some v => v | None => "undefined" end
          end).
Proof.
  unfold mirror_one. destruct (obj_get env (redwood_env_key key)) eqn:E; [exact E|].
  apply obj_get_set_same.
Qed.

Lemma mirror_one_other env key k :
  k <> redwood_env_key key -> obj_get (mirror_one env key) k = obj_get env k.
Proof.
  intros H; unfold mirror_one.
  destruct (obj_get env (redwood_env_key key)); [reflexivity|].
  apply obj_get_set_other; congruence.
Qed.

Lemma mirror_fold_mono ks env k v :
  obj_get env k = Some v -> obj_get (fold_left mirror_one ks env) k = Some v.
Proof.
  revert env; induction ks as [|key ks IH]; simpl; intros env H; auto.
  apply IH, mirror_one_mono, H.
Qed.

Lemma mirror_fold_vercel ks env k :
  String.prefix "VERCEL_" k = true ->
  obj_get (fold_left mirror_one ks env) k = obj_get env k.
Proof.
  revert env; induction ks as [|key ks IH]; simpl; intros env H; auto.
  rewrite IH by exact H. apply mirror_one_vercel, H.
Qed.

Lemma mirror_fold_key ks env k :
  String.prefix "VERCEL_" k = true -> In k ks ->
  obj_get (fold_left mirror_one ks env) (redwood_env_key k)
  = Some (match obj_get env (redwood_env_key k) with
          | Some w => w
          | None => match obj_get env k with Some v => v | None => "undefined" end
          end).
Proof.
  revert env; induction ks as [|key ks IH]; simpl; intros env Hp Hin; [contradiction|].
  destruct (String.eqb key k) eqn:E.
  - apply String.eqb_eq in E; subst key.
    apply mirror_fold_mono, mirror_one_self.
  - destruct Hin as [Hin|Hin]; [subst; now rewrite String.eqb_refl in E|].
    rewrite IH by assumption.
    rewrite (mirror_one_vercel env key k Hp).
    rewrite (mirror_one_other env key (redwood_env_key k)); [reflexivity|].
    intros Heq. apply redwood_env_key_inj in Heq. subst; now rewrite String.eqb_refl in E.
Qed.

Lemma mirror_redwood_key e k v :
  String.prefix "VERCEL_" k = true -> obj_get e k = Some v ->
  obj_get (mirror_vercel_env e) (redwood_env_key k)
  = Some (match obj_get e (redwood_env_key k) with Some w => w | None => v end).
Proof.
  intros Hp Hk. unfold mirror_vercel_env.
  rewrite mirror_fold_key; [now rewrite Hk|exact Hp|].
  apply filter_In; split; [eapply obj_get_in; eauto|exact Hp].
Qed.

Lemma mirror_fold_origin e ks env :
  (forall k0, In k0 ks -> String.prefix "VERCEL_" k0 = true /\ obj_get e k0 <> None) ->
  (forall j, String.prefix "VERCEL_" j = true -> obj_get env j = obj_get e j) ->
  (forall k v, obj_get e k = None -> obj_get env k = Some v ->
     exists k0, k = redwood_env_key k0 /\ String.prefix "VERCEL_" k0 = true
                /\ obj_get e k0 = Some v) ->
  forall k v, obj_get e k = None -> obj_get (fold_left mirror_one ks env) k = Some v ->
     exists k0, k = redwood_env_key k0 /\ String.prefix "VERCEL_" k0 = true
                /\ obj_get e k0 = Some v.
Proof.
  revert env; induction ks as [|key ks IH]; simpl; intros env Hks Hv Hinv; [exact Hinv|].
  apply IH.
  - intros; apply Hks; auto.
  - intros j Hj. rewrite mirror_one_vercel by exact Hj. auto.
  - intros k v Hek Hget. unfold mirror_one in Hget.
    destruct (obj_get env (redwood_env_key key)) eqn:E; [eauto|].
    rewrite obj_get_set in Hget.
    destruct (String.eqb (redwood_env_key key) k) eqn:E2; [|eauto].
    apply String.eqb_eq in E2; subst k.
    destruct (Hks key (or_introl eq_refl)) as [Hp Hne].
    rewrite Hv in Hget by exact Hp.
    destruct (obj_get e key) as [w|] eqn:Ew; [|contradiction].
    inversion Hget; subst. exists key; auto.
Qed.

Lemma mirror_origin e k v :
  obj_get e k = None -> obj_get (mirror_vercel_env e) k = Some v ->
  exists k0, k = redwood_env_key k0 /\ String.prefix "VERCEL_" k0 = true
             /\ obj_get e k0 = Some v.
Proof.
  unfold mirror_vercel_env. apply mirror_fold_origin; [|reflexivity|congruence].
  intros k0 H. apply filter_In in H as [Hin Hp]. split; [exact Hp|].
  destruct (in_obj_get _ _ Hin) as [w Hw]; congruence.
Qed.

Lemma mirror_fold_noop ks env :
  (forall k, In k ks -> obj_get env (redwood_env_key k) <> None) ->
  fold_left mirror_one ks env = env.
Proof.
  revert env; induction ks as [|key ks IH]; simpl; intros env H; [reflexivity|].
  unfold mirror_one at 2. destruct (obj_get env (redwood_env_key key)) eqn:E.
  - apply IH; auto.
  - exfalso; apply (H key); auto.
Qed.

Lemma vercel_env_mirror_idempotent_h e : mirror_vercel_env (mirror_vercel_env e) = mirror_vercel_env e.
Proof.
  unfold mirror_vercel_env at 1. apply mirror_fold_noop.
  intros k Hk. apply filter_In in Hk as [Hin Hp].
  destruct (in_obj_get _ _ Hin) as [v Hv].
  unfold mirror_vercel_env in Hv. rewrite mirror_fold_vercel in Hv by exact Hp.
  rewrite (mirror_redwood_key e k v Hp Hv). discriminate.
Qed.

(** Lines 57-64: mirroring the [VERCEL_] variables keeps every variable it
    finds.  Each [VERCEL_X] gets a [REDWOOD_ENV_VERCEL_X] with the same
    value, unless that name was already set, in which case it keeps its
    value.  Every variable it adds is such a copy. *)
Theorem vercel_env_mirror_adds_missing_copies e :
  (forall k v, obj_get e k = Some v -> obj_get (mirror_vercel_env e) k = Some v)
  /\ (forall k v, String.prefix "VERCEL_" k = true -> obj_get e k = Some v ->
        obj_get (mirror_vercel_env e) (redwood_env_key k)
        = Some (match obj_get e (redwood_env_key k) with Some w => w | None => v end))
  /\ (forall k v, obj_get e k = None -> obj_get (mirror_vercel_env e) k = Some v ->
        exists k0, k = redwood_env_key k0 /\ String.prefix "VERCEL_" k0 = true
                   /\ obj_get e k0 = Some v).
Proof.
  split; [|split].
  - intros k v H. unfold mirror_vercel_env. now apply mirror_fold_mono.
  - exact (mirror_redwood_key e).
  - exact (mirror_origin e).
Qed.

(** Lines 57-64: mirroring twice gives the same environment as mirroring
    once. *)
Theorem vercel_env_mirror_idempotent e :
  mirror_vercel_env (mirror_vercel_env e) = mirror_vercel_env e.
Proof. exact (vercel_env_mirror_idempotent_h e). Qed.

(** ** Spawn options, trimming and [hasScript] *)

(** Lines 83-99: the [PATH] fix-ups.  Adjusting the spawn options changes no
    variable but [PATH].  Either nothing changes and nothing is logged, or
    [PATH] becomes [/node16/bin-npm7] or [/pnpm7/node_modules/.bin], then
    [path.delimiter], then the old [PATH] (["undefined"] when unset), and
    exactly one console line is written. *)
Theorem spawn_path_only_changes_PATH cli lv maj env :
  let '(env', msgs) := adjust_path cli lv maj env in
  (forall k, k <> "PATH" -> obj_get env' k = obj_get env k)
  /\ ((env' = env /\ msgs = [])
      \/ (exists d, In d ["/node16/bin-npm7"; "/pnpm7/node_modules/.bin"]
            /\ obj_get env' "PATH" = Some (append d (append delimiter (env_PATH env)))
            /\ length msgs = 1)).
Proof.
  unfold adjust_path.
  destruct (String.eqb cli "npm");
    [ destruct lv as [v|]; [destruct (_ && _)|]
    | destruct (String.eqb cli "pnpm");
      [ destruct lv as [v|]; [destruct (PrimFloat.eqb v pnpm7_lockfile)|] | ] ];
  cbv beta iota;
  (split; [intros k Hk; first [reflexivity | apply obj_get_set_other; congruence] |]);
  first [ left; split; reflexivity
        | right; eexists; split;
          [ | split; [apply obj_get_set_same | reflexivity] ]; simpl; tauto ].
Qed.

(** ** Trimming *)

Lemma trim_start_empty s :
  trim_start s = "" <-> forallb js_space (list_ascii_of_string s) = true.
Proof.
  induction s as [|c s IH]; simpl; [tauto|].
  destruct (js_space c); simpl; [exact IH|split; discriminate].
Qed.

Lemma trim_start_head s :
  trim_start s = "" \/ exists c s', trim_start s = String c s' /\ js_space c = false.
Proof.
  induction s as [|c s IH]; simpl; [auto|].
  destruct (js_space c) eqn:E; [exact IH|right; eauto].
Qed.

Lemma js_trim_empty s :
  js_trim s = "" <-> forallb js_space (list_ascii_of_string s) = true.
Proof.
  unfold js_trim. rewrite <- trim_start_empty.
  destruct (trim_start_head s) as [H|(c & s' & H & Hc)]; rewrite H; simpl.
  - tauto.
  - rewrite Hc, andb_false_r. split; discriminate.
Qed.

(** ** [hasScript] *)

(** Lines 325-328: for the two names [build] uses, [hasScript(name, pkg)]
    holds exactly when [pkg] is an object whose [scripts] property is an
    object whose [name] property is a string.  Any other shape gives
    [false]: a missing [package.json], [scripts] absent or not an object,
    or a script that is not a string. *)
Theorem hasScript_only_string_scripts n pkg :
  n = "vercel-build" \/ n = "build" ->
  hasScript n pkg = true <->
  exists o sc s, pkg = JObj o /\ obj_get o "scripts" = Some (JObj sc)
                 /\ obj_get sc n = Some (JStr s).
Proof.
  intros _.
  unfold hasScript.
  destruct pkg as [| |b|x|s|o];
    [ | | destruct b | destruct (num_truthy x) eqn:Ex | destruct (String.eqb s "") eqn:Es | ];
    simpl; rewrite ?Ex, ?Es; simpl; rewrite ?Ex, ?Es; simpl;
    try (split; [discriminate | intros (? & ? & ? & H & _); discriminate]).
  destruct (obj_get o "scripts") as [v|] eqn:Eo.
  2:{ simpl. split; [discriminate|intros (? & ? & ? & H & H' & _); inversion H; subst; congruence]. }
  destruct v as [| |b|x|s|sc];
    [ | | destruct b | destruct (num_truthy x) eqn:Ex | destruct (String.eqb s "") eqn:Es | ];
    simpl; rewrite ?Ex, ?Es; simpl; rewrite ?Ex, ?Es; simpl;
    try (split; [discriminate | intros (? & ? & ? & H & H' & _); inversion H; subst; congruence]).
  destruct (obj_get sc n) as [w|] eqn:Ew.
  - destruct w; (split; [|intros (? & ? & ? & H & H' & H''); inversion H; subst;
                         rewrite Eo in H'; inversion H'; subst; congruence]);
      intros Ht; try discriminate; eauto 6.
  - split; [discriminate|intros (? & ? & ? & H & H' & H''); inversion H; subst;
            rewrite Eo in H'; inversion H'; subst; congruence].
Qed.

(** ** The install and build steps *)

Lemma run_cmd_spec pe c s r s' :
  run_cmd pe c s = (r, s') ->
  proc_env s' = proc_env s /\ commands s' = commands s ++ [c]
  /\ (forall m, cmd_error pe c = Some m -> r = Exn (ExnMsg m))
  /\ (cmd_error pe c = None -> r = Ok tt).
Proof.
  unfold run_cmd; intros H; destruct (cmd_error pe c) eqn:E; inversion H; subst; simpl;
    repeat split; intros; congruence.
Qed.

Ltac unfold_P H :=
  cbv beta iota delta [pbind pdebug log pret pthrow read_prop] in H.

Lemma install_step_spec pe env cwd s r s' :
  install_step pe env cwd s = (r, s') ->
  proc_env s' = proc_env s /\
  exists cs, commands s' = commands s ++ cs /\ length cs <= 1
    /\ Forall (fun c => match c with
                        | Exec cmd _ _ => installCommand pe = Some cmd
                        | RunNpmInstall _ _ => installCommand pe = None
                        | RunScript _ _ _ => False
                        end) cs
    /\ (forall c m, In c cs -> cmd_error pe c = Some m -> r = Exn (ExnMsg m))
    /\ (r = Ok tt -> Forall (fun c => cmd_error pe c = None) cs).
Proof.
  unfold install_step. intros H.
  destruct (installCommand pe) as [cmd|] eqn:Ei; [destruct (negb (String.eqb (js_trim cmd) ""))|];
    unfold_P H.
  - apply run_cmd_spec in H as (Hp & Hc & Hm & Hn). simpl in Hp, Hc.
    split; [exact Hp|]. eexists; split; [exact Hc|].
    split; [simpl; lia|]. split; [constructor; [first [reflexivity|exact Ei]|constructor]|].
    split; [intros c m [<-|[]]; apply Hm|].
    intros ->. constructor; [|constructor].
    destruct (cmd_error _ _) eqn:E; [specialize (Hm _ eq_refl); discriminate|reflexivity].
  - inversion H; subst; simpl. split; [reflexivity|]. exists [].
    rewrite app_nil_r. repeat split; auto. intros c m [].
  - apply run_cmd_spec in H as (Hp & Hc & Hm & Hn).
    split; [exact Hp|]. eexists; split; [exact Hc|].
    split; [simpl; lia|]. split; [constructor; [first [reflexivity|exact Ei]|constructor]|].
    split; [intros c m [<-|[]]; apply Hm|].
    intros ->. constructor; [|constructor].
    destruct (cmd_error _ _) eqn:E; [specialize (Hm _ eq_refl); discriminate|reflexivity].
Qed.

(** Lines 101-120: the install step.  With no [installCommand] it runs
    [runNpmInstall] in the entrypoint directory with the spawn environment.
    With an [installCommand] made only of white space it starts nothing and
    succeeds.  Otherwise it runs that command in the entrypoint directory
    with the spawn environment plus [YARN_NODE_LINKER]: a
    [YARN_NODE_LINKER] of the spawn environment wins over
    ["node-modules"], and every other variable is the spawn environment's. *)
Theorem install_command_choice pe spawnEnv cwd s r s' :
  NoDup (map fst spawnEnv) ->
  install_step pe spawnEnv cwd s = (r, s') ->
  (installCommand pe = None -> commands s' = commands s ++ [RunNpmInstall cwd spawnEnv])
  /\ (forall cmd, installCommand pe = Some cmd ->
        forallb js_space (list_ascii_of_string cmd) = true ->
        commands s' = commands s /\ r = Ok tt)
  /\ (forall cmd, installCommand pe = Some cmd ->
        forallb js_space (list_ascii_of_string cmd) = false ->
        exists env, commands s' = commands s ++ [Exec cmd env cwd]
          /\ obj_get env "YARN_NODE_LINKER"
             = Some (match obj_get spawnEnv "YARN_NODE_LINKER" with
                     | Some v => v
                     | None => "node-modules"
                     end)
          /\ forall k, k <> "YARN_NODE_LINKER" -> obj_get env k = obj_get spawnEnv k).
Proof.
  intros Hnd H. unfold install_step in H.
  destruct (installCommand pe) as [cmd|] eqn:Ei.
  - split; [discriminate|].
    destruct (String.eqb (js_trim cmd) "") eqn:Et; simpl in H; unfold_P H.
    + apply String.eqb_eq, js_trim_empty in Et.
      inversion H; subst; simpl. split.
      * intros c Hc Hs; inversion Hc; subst. split; reflexivity.
      * intros c Hc Hs; inversion Hc; subst. congruence.
    + apply run_cmd_spec in H as (_ & Hc & _). simpl in Hc.
      split.
      * intros c Hc' Hs; inversion Hc'; subst.
        apply String.eqb_neq in Et. exfalso; apply Et, js_trim_empty, Hs.
      * intros c Hc' Hs; inversion Hc'; subst. eexists; split; [exact Hc|].
        split.
        -- rewrite obj_get_spread by exact Hnd.
           destruct (obj_get spawnEnv "YARN_NODE_LINKER"); reflexivity.
        -- intros k Hk. rewrite obj_get_spread by exact Hnd.
           destruct (obj_get spawnEnv k); [reflexivity|].
           cbn [obj_get]. destruct (String.eqb "YARN_NODE_LINKER" k) eqn:E; [|reflexivity].
           apply String.eqb_eq in E; congruence.
  - split; [|split; intros; discriminate].
    intros _. unfold_P H. apply run_cmd_spec in H as (_ & Hc & _). exact Hc.
Qed.

Lemma dev_dependencies_read pkg :
  exists dd, get_prop (if js_truthy pkg then pkg else JObj []) "devDependencies" = Some dd
    /\ (dd = JNull -> exists o, pkg = JObj o /\ obj_get o "devDependencies" = Some JNull)
    /\ (forall dd', dd = JObj dd' -> exists o, pkg = JObj o
                                    /\ obj_get o "devDependencies" = Some (JObj dd')).
Proof.
  destruct pkg as [| |b|x|s|o]; simpl;
    try (destruct b); try (destruct (num_truthy x)); try (destruct (negb (String.eqb s "")));
    simpl; try (eexists; split; [reflexivity|split; intros; discriminate]).
  destruct (obj_get o "devDependencies") as [v|] eqn:E.
  - exists v. split; [reflexivity|]. split; intros; subst; eauto.
  - eexists; split; [reflexivity|split; intros; discriminate].
Qed.

Lemma choose_cmd_spec pe env v s r s' :
  (let+ cmd :=
      if negb (js_truthy v) || negb (validRange pe v) then
        let+ _ := log "WARNING: Unable to detect RedwoodJS version in package.json devDependencies" in
        pret deploy_cmd
      else if intersectsLegacy pe v then pret legacy_cmd
      else pret deploy_cmd in
    run_cmd pe (Exec cmd env (pre_workPath pe))) s = (r, s') ->
  exists cmd, proc_env s' = proc_env s
    /\ commands s' = commands s ++ [Exec cmd env (pre_workPath pe)]
    /\ (cmd_error pe (Exec cmd env (pre_workPath pe)) = None -> r = Ok tt)
    /\ (forall m, cmd_error pe (Exec cmd env (pre_workPath pe)) = Some m -> r = Exn (ExnMsg m))
    /\ (cmd = legacy_cmd \/ cmd = deploy_cmd)
    /\ (cmd = legacy_cmd <->
        js_truthy v = true /\ validRange pe v = true /\ intersectsLegacy pe v = true).
Proof.
  intros H.
  assert (Hne : legacy_cmd <> deploy_cmd) by (unfold legacy_cmd, deploy_cmd; discriminate).
  destruct (js_truthy v) eqn:Et, (validRange pe v) eqn:Ev; simpl in H;
    [destruct (intersectsLegacy pe v) eqn:Ei| | |]; unfold_P H;
    apply run_cmd_spec in H as (Hp & Hc & Hm & Hn); simpl in Hp, Hc;
    eexists; (split; [exact Hp|]); (split; [exact Hc|]); (split; [exact Hn|]);
    (split; [exact Hm|]); rewrite ?Ei;
    (split; [auto|]); split; intros; try tauto; try congruence;
    destruct H as (? & ? & ?); congruence.
Qed.

Lemma script_or_default_spec pe env pkg s r s' :
  script_or_default pe env pkg s = (r, s') ->
  proc_env s' = proc_env s /\
  ((exists c, commands s' = commands s ++ [c] /\ cmd_cwd c = pre_workPath pe /\ cmd_env c = env
      /\ (cmd_error pe c = None -> r = Ok tt)
      /\ (forall m, cmd_error pe c = Some m -> r = Exn (ExnMsg m))
      /\ (hasScript "vercel-build" pkg = false -> hasScript "build" pkg = false ->
          exists cmd, c = Exec cmd env (pre_workPath pe)
            /\ (cmd = legacy_cmd \/ cmd = deploy_cmd)
            /\ (cmd = legacy_cmd <->
                exists o dd v, pkg = JObj o /\ obj_get o "devDependencies" = Some (JObj dd)
                  /\ obj_get dd "@redwoodjs/core" = Some v /\ js_truthy v = true
                  /\ validRange pe v = true /\ intersectsLegacy pe v = true)))
   \/ (commands s' = commands s
       /\ hasScript "vercel-build" pkg = false /\ hasScript "build" pkg = false
       /\ (exists o, pkg = JObj o /\ obj_get o "devDependencies" = Some JNull)
       /\ r = Exn (ExnMsg type_error_null))).
Proof.
  intros H. unfold script_or_default in H.
  destruct (hasScript "vercel-build" pkg) eqn:Hv; [|destruct (hasScript "build" pkg) eqn:Hb].
  1,2: unfold_P H; apply run_cmd_spec in H as (Hp & Hc & Hm & Hn); simpl in Hp, Hc;
       split; [exact Hp|]; left; eexists; split; [exact Hc|];
       split; [reflexivity|]; split; [reflexivity|]; split; [exact Hn|]; split; [exact Hm|];
       intros; discriminate.
  destruct (dev_dependencies_read pkg) as (dd & Hdd & Hnull & Hobj).
  unfold pbind at 1, read_prop at 1 in H. rewrite Hdd in H.
  cbv beta iota zeta delta [pret] in H.
  destruct dd as [| |b|x|str|o'];
    unfold pbind at 1, read_prop at 1 in H; cbv beta iota delta [get_prop pret pthrow] in H.
  2:{ inversion H; subst. split; [reflexivity|]. right. repeat split; auto. }
  all: apply choose_cmd_spec in H as (cmd & Hp & Hc & Hn & Hm & Hlc & Hiff);
       split; [exact Hp|]; left; eexists; split; [exact Hc|];
       split; [reflexivity|]; split; [reflexivity|]; split; [exact Hn|]; split; [exact Hm|];
       intros _ _; exists cmd; split; [reflexivity|]; split; [exact Hlc|]; rewrite Hiff.
  5:{ split.
      - intros (Ht & Hr & Hi). destruct (Hobj o' eq_refl) as (o & Hpk & Ho).
        destruct (obj_get o' "@redwoodjs/core") as [v|] eqn:Ev; [|discriminate].
        exists o, o', v. repeat split; auto.
      - intros (o & dd & v & Hpk & Ho & Hv' & Ht & Hr & Hi). subst pkg.
        destruct (Hobj o' eq_refl) as (o2 & Hpk & Ho2). inversion Hpk; subst o2.
        rewrite Ho in Ho2; inversion Ho2; subst dd. rewrite Hv'. auto. }
  all: split; [simpl; intros (Ht & _); discriminate|].
  all: intros (o & dd & v & Hpk & Ho & _); subst pkg.
  all: simpl in Hdd; rewrite Ho in Hdd; discriminate.
Qed.

Lemma build_step_cases pe env pkg s r s' :
  build_step pe env pkg s = (r, s') ->
  proc_env s' = proc_env s /\
  ((exists c, commands s' = commands s ++ [c] /\ cmd_cwd c = pre_workPath pe /\ cmd_env c = env
      /\ (cmd_error pe c = None -> r = Ok tt)
      /\ (forall m, cmd_error pe c = Some m -> r = Exn (ExnMsg m))
      /\ (match buildCommand pe with Some bc => bc = "" | None => True end ->
          hasScript "vercel-build" pkg = false -> hasScript "build" pkg = false ->
          exists cmd, c = Exec cmd env (pre_workPath pe)
            /\ (cmd = legacy_cmd \/ cmd = deploy_cmd)
            /\ (cmd = legacy_cmd <->
                exists o dd v, pkg = JObj o /\ obj_get o "devDependencies" = Some (JObj dd)
                  /\ obj_get dd "@redwoodjs/core" = Some v /\ js_truthy v = true
                  /\ validRange pe v = true /\ intersectsLegacy pe v = true)))
   \/ (commands s' = commands s
       /\ match buildCommand pe with Some bc => bc = "" | None => True end
       /\ hasScript "vercel-build" pkg = false /\ hasScript "build" pkg = false
       /\ (exists o, pkg = JObj o /\ obj_get o "devDependencies" = Some JNull)
       /\ r = Exn (ExnMsg type_error_null))).
Proof.
  intros H. unfold build_step in H.
  destruct (buildCommand pe) as [bc|] eqn:Eb; [destruct (String.eqb bc "") eqn:Ee|].
  - apply String.eqb_eq in Ee; subst bc. simpl in H.
    apply script_or_default_spec in H as [Hp [(c & Hc & Hw & He & Hn & Hm & Hd)|Ht]];
      (split; [exact Hp|]); [left|right].
    + exists c. repeat split; auto.
    + destruct Ht as (? & ? & ? & ? & ?). repeat split; auto.
  - simpl in H; unfold_P H. apply run_cmd_spec in H as (Hp & Hc & Hm & Hn). simpl in Hp, Hc.
    split; [exact Hp|]. left. eexists; split; [exact Hc|].
    split; [reflexivity|]. split; [reflexivity|]. split; [exact Hn|]. split; [exact Hm|].
    intros Hbc; apply String.eqb_neq in Ee; contradiction.
  - apply script_or_default_spec in H as [Hp [(c & Hc & Hw & He & Hn & Hm & Hd)|Ht]];
      (split; [exact Hp|]); [left|right].
    + exists c. repeat split; auto.
    + destruct Ht as (? & ? & ? & ? & ?). repeat split; auto.
Qed.

(** Lines 132-165: the build step starts exactly one command, in [workPath]
    with the spawn environment, and succeeds exactly when that command does.
    The one exception is a [package.json] whose [devDependencies] is
    [null]: the step then starts nothing and throws a [TypeError] on reading
    [@redwoodjs/core]. *)
Theorem build_step_runs_one_command pe env pkg s r s' :
  build_step pe env pkg s = (r, s') ->
  (exists c, commands s' = commands s ++ [c] /\ cmd_cwd c = pre_workPath pe /\ cmd_env c = env
             /\ (r = Ok tt <-> cmd_error pe c = None))
  \/ (commands s' = commands s
      /\ match buildCommand pe with Some bc => bc = "" | None => True end
      /\ hasScript "vercel-build" pkg = false /\ hasScript "build" pkg = false
      /\ (exists o, pkg = JObj o /\ obj_get o "devDependencies" = Some JNull)
      /\ r = Exn (ExnMsg "TypeError: Cannot read properties of null (reading '@redwoodjs/core')")).
Proof.
  intros H. apply build_step_cases in H as [_ [(c & Hc & Hw & He & Hn & Hm & _)|Ht]].
  - left. exists c. repeat split; auto.
    intros Hr; subst r. destruct (cmd_error pe c) eqn:E; [|reflexivity].
    specialize (Hm _ eq_refl); discriminate.
  - right. exact Ht.
Qed.

(** Lines 150-165: with no [buildCommand] and neither a [vercel-build]
    nor a [build] script, the command started is the legacy command or
    [yarn rw deploy vercel], and it is the legacy one exactly when
    [devDependencies['@redwoodjs/core']] is a truthy valid range that
    intersects [<0.25.0]. *)
Theorem build_step_default_command pe env pkg s r s' cmd env' cwd :
  match buildCommand pe with Some bc => bc = "" | None => True end ->
  hasScript "vercel-build" pkg = false -> hasScript "build" pkg = false ->
  build_step pe env pkg s = (r, s') ->
  commands s' = commands s ++ [Exec cmd env' cwd] ->
  (cmd = legacy_cmd \/ cmd = deploy_cmd)
  /\ (cmd = legacy_cmd <->
      exists o dd v, pkg = JObj o /\ obj_get o "devDependencies" = Some (JObj dd)
        /\ obj_get dd "@redwoodjs/core" = Some v /\ js_truthy v = true
        /\ validRange pe v = true /\ intersectsLegacy pe v = true).
Proof.
  intros Hbc Hv Hb H Hcs. apply build_step_cases in H as [_ [(c & Hc & _ & _ & _ & _ & Hd)|Ht]].
  - rewrite Hcs in Hc. apply app_inv_head in Hc. inversion Hc; subst c.
    destruct (Hd Hbc Hv Hb) as (cmd0 & Heq & Hl & Hiff). inversion Heq; subst cmd0.
    split; [exact Hl|exact Hiff].
  - destruct Ht as (Hc & _). rewrite Hcs in Hc.
    apply (f_equal (@length Command)) in Hc. rewrite length_app in Hc. simpl in Hc. lia.
Qed.

Lemma log_all_spec msgs s :
  log_all msgs s = (Ok tt, mkPreSt (proc_env s) (commands s) (console s ++ msgs) (pre_debug s)).
Proof.
  revert s; induction msgs as [|m ms IH]; intros s; simpl.
  - destruct s; simpl; now rewrite app_nil_r.
  - unfold pbind, log. rewrite IH. simpl. now rewrite <- app_assoc.
Qed.

Lemma prelude_steps pe s r s' :
  prelude pe s = (r, s') ->
  exists spawnEnv cwd s1 r1 s2,
    proc_env s1 = mirror_vercel_env (proc_env s) /\ commands s1 = commands s
    /\ install_step pe spawnEnv cwd s1 = (r1, s2)
    /\ match r1 with
       | Exn e => r = Exn e /\ s' = s2
       | Ok _ =>
           if isDev pe
           then r = Exn (ExnMsg "Detected `@vercel/redwood` dev but this is not supported") /\ s' = s2
           else build_step pe spawnEnv (pkgJson pe) s2 = (r, s')
       end.
Proof.
  unfold prelude. cbv beta iota zeta delta [pbind pget set_proc_env]. simpl.
  destruct (adjust_path _ _ _ _) as [spawnEnv msgs].
  rewrite log_all_spec. intros H.
  destruct (install_step _ _ _ _) as [r1 s2] eqn:Ei.
  refine (ex_intro _ spawnEnv (ex_intro _ _ (ex_intro _ _ (ex_intro _ r1 (ex_intro _ s2
            (conj _ (conj _ (conj Ei _)))))))); [reflexivity|reflexivity|].
  destruct r1 as [u|e].
  - destruct (isDev pe); [unfold pthrow in H; inversion H; auto|exact H].
  - inversion H; auto.
Qed.

(** Lines 122-124: with [meta.isDev] the run throws; the only command it
    has started by then is the install command ([runNpmInstall] or the
    configured [installCommand]), so no build command ever runs. *)
Theorem prelude_dev_runs_no_build_command pe s r s' :
  isDev pe = true -> prelude pe s = (r, s') ->
  (exists e, r = Exn e)
  /\ exists cs, commands s' = commands s ++ cs /\ length cs <= 1
     /\ Forall (fun c => match c with
                         | Exec cmd _ _ => installCommand pe = Some cmd
                         | RunNpmInstall _ _ => installCommand pe = None
                         | RunScript _ _ _ => False
                         end) cs.
Proof.
  intros Hd H. apply prelude_steps in H as (spawnEnv & cwd & s1 & r1 & s2 & Hp1 & Hc1 & Ei & Hr).
  apply install_step_spec in Ei as (_ & cs & Hc & Hl & Hf & _ & _).
  rewrite Hd in Hr.
  destruct r1; destruct Hr as [Hr Hs]; subst; (split; [eauto|]);
    exists cs; rewrite <- Hc1; auto.
Qed.

(** Lines 57-165: the first steps start at most two commands, and
    [process.env] ends up as the [VERCEL_] mirror of the one they started
    with.  A failing command is the last one started and its error is the
    run's error.  On success every command started succeeded, and at least
    one command was started. *)
Theorem prelude_stops_at_failure pe s r s' :
  prelude pe s = (r, s') ->
  proc_env s' = mirror_vercel_env (proc_env s) /\
  exists cs, commands s' = commands s ++ cs /\ length cs <= 2
   /\ (forall i c m, nth_error cs i = Some c -> cmd_error pe c = Some m ->
        S i = length cs /\ r = Exn (ExnMsg m))
   /\ (r = Ok tt -> Forall (fun c => cmd_error pe c = None) cs /\ cs <> []).
Proof.
  intros H. apply prelude_steps in H as (spawnEnv & cwd & s1 & r1 & s2 & Hp1 & Hc1 & Ei & Hr).
  apply install_step_spec in Ei as (Hp2 & cs1 & Hc & Hl & _ & Hm1 & Hok1).
  rewrite Hc1 in Hc. rewrite Hp1 in Hp2.
  assert (Hlast : forall i c, nth_error cs1 i = Some c -> S i = length cs1).
  { intros i c Hn. assert (i < length cs1) by (apply nth_error_Some; congruence). lia. }
  destruct r1 as [u|e].
  - destruct u. specialize (Hok1 eq_refl).
    assert (Hno : forall i c m, nth_error cs1 i = Some c -> cmd_error pe c = Some m -> False).
    { intros i c m Hn He. apply nth_error_In in Hn.
      rewrite Forall_forall in Hok1. rewrite (Hok1 c Hn) in He. discriminate. }
    destruct (isDev pe).
    + destruct Hr as [-> ->]. split; [exact Hp2|]. exists cs1.
      split; [exact Hc|]. split; [lia|]. split; [intros; exfalso; eauto|discriminate].
    + apply build_step_cases in Hr as [Hp3 [(c & Hc3 & _ & _ & Hn & Hm & _)|Ht]];
        (split; [congruence|]).
      * exists (cs1 ++ [c]). rewrite Hc3, Hc, app_assoc. split; [reflexivity|].
        rewrite length_app; simpl. split; [lia|]. split.
        -- intros i c' m Hi He.
           destruct (Nat.lt_ge_cases i (length cs1)) as [Hlt|Hge].
           ++ rewrite nth_error_app1 in Hi by exact Hlt. exfalso; eauto.
           ++ rewrite nth_error_app2 in Hi by exact Hge.
              destruct (i - length cs1) as [|k] eqn:Ek; simpl in Hi.
              ** inversion Hi; subst c'. split; [lia|]. apply Hm, He.
              ** destruct k; discriminate.
        -- intros ->. split.
           ++ apply Forall_app; split; [exact Hok1|]. constructor; [|constructor].
              destruct (cmd_error pe c) eqn:E; [specialize (Hm _ eq_refl); discriminate|reflexivity].
           ++ destruct cs1; discriminate.
      * destruct Ht as (Hc3 & _ & _ & _ & _ & Hr). subst r.
        exists cs1. rewrite Hc3. split; [exact Hc|]. split; [lia|].
        split; [intros; exfalso; eauto|discriminate].
  - destruct Hr as [-> ->]. split; [exact Hp2|]. exists cs1.
    split; [exact Hc|]. split; [lia|]. split; [|discriminate].
    intros i c m Hn He. split; [eapply Hlast; eauto|].
    apply nth_error_In in Hn. apply (Hm1 c m Hn He).
Qed.

(** ** The build output *)

(** Lines 320-323: for a file with no directory, [getAWSLambdaHandler]
    puts no separator in front: the handler is [name.handler], where [name]
    is the file name without its extension. *)
Theorem aws_handler_top_level_file x h :
  seg_ok x = true -> getAWSLambdaHandler x h = append (name_of x) (append "." h).
Proof.
  intros H. assert (Hf : forallb seg_ok [x] = true) by (simpl; now rewrite H).
  unfold getAWSLambdaHandler, parse_name.
  pose proof (parse_dir_render [x] Hf) as Hd. pose proof (parse_base_render [x] Hf) as Hb.
  simpl in Hd, Hb. rewrite Hd, Hb. reflexivity.
Qed.

Lemma no_slash_substring s k : no_slash s = true -> substring k 1 s <> "/".
Proof.
  revert k. induction s as [|c s IH]; intros k H; simpl in H.
  - destruct k; simpl; discriminate.
  - apply andb_prop in H as [Hc Hs]. destruct k as [|k]; simpl.
    + intros E. inversion E; subst. discriminate.
    + now apply IH.
Qed.

Lemma no_slash_not_ends s : no_slash s = true -> ends_with_slash s = false.
Proof.
  intros H. unfold ends_with_slash, ends_with. cbn [String.length].
  destruct (1 <=? String.length s)%nat; [|reflexivity]. simpl andb.
  apply String.eqb_neq. now apply no_slash_substring.
Qed.

Lemma path_join_str_empty_seg b :
  seg_norm b = true -> path_join_str "" b = b.
Proof.
  intros Hn. pose proof (seg_norm_ok b Hn) as Hok.
  pose proof (seg_ok_nonempty b Hok) as Hne.
  pose proof (seg_ok_no_slash b Hok) as Hns.
  assert (Hs : starts_with_slash b = false)
    by exact (starts_with_slash_render [b] ltac:(simpl; now rewrite Hok)).
  unfold path_join_str. simpl.
  rewrite (proj2 (String.eqb_neq b "") Hne), Hs.
  rewrite (split_slash_no_slash b Hns).
  unfold seg_norm in Hn. apply andb_prop in Hn as [Hn Hdd]. apply andb_prop in Hn as [_ Hd].
  apply negb_true_iff in Hd, Hdd.
  unfold normalize_rel, norm_rel_step. simpl.
  rewrite (proj2 (String.eqb_neq b "") Hne), Hd, Hdd. simpl.
  rewrite (proj2 (String.eqb_neq b "") Hne). simpl.
  rewrite (no_slash_not_ends b Hns). reflexivity.
Qed.

(** Lines 167 and 216: when [web.apiProxyPath] is ["/"] or [""],
    [apiDir] is empty and a function's output name is its bare name, with
    no directory in front. *)
Theorem root_api_proxy_unprefixed p funcName :
  p = "/" \/ p = "" ->
  seg_norm (parse_name funcName) = true ->
  outputName_of (apiDir_of (Some p)) funcName = parse_name funcName.
Proof.
  intros Hp Hn. unfold outputName_of.
  replace (apiDir_of (Some p)) with "" by (destruct Hp; subst; reflexivity).
  now apply path_join_str_empty_seg.
Qed.

(** Lines 230-255: the first successful read of a path calls
    [readFileSync] and then [lstatSync] on it, and nothing else.  It returns
    the file's bytes and stores in [fsCache] a [FileFsRef] of the path for a
    symbolic link, or else a [FileBlob] of the bytes with the file's mode.
    A first read that finds nothing calls only [readFileSync] and leaves
    [fsCache] unchanged. *)
Theorem readFile_first_read env p st r st' :
  obj_get (sourceCache st) (cache_key env p) = None ->
  readFile env p st = (Ok r, st') ->
  match r with
  | Some data =>
      exists n, find_node env p = Some n /\ fault env p = None /\ data = node_data n
      /\ fs_log st' = fs_log st ++ [("readFileSync", p); ("lstatSync", p)]
      /\ exists f, obj_get (fsCache st') (cache_key env p) = Some f /\
           match f with
           | FsRefFile ref => isSymbolicLink (node_mode n) = true
                              /\ fsPath ref = p /\ ref_mode ref = node_mode n
           | BlobFile b => isSymbolicLink (node_mode n) = false
                           /\ blob_data b = node_data n /\ blob_mode b = node_mode n
           end
  | None =>
      fs_log st' = fs_log st ++ [("readFileSync", p)]
      /\ fsCache st' = fsCache st
  end.
Proof.
  intros Hc H. unfold readFile in H. unfold_M. rewrite Hc in H.
  readFile_miss_cases;
    repeat match goal with
    | H : context [if ?b then _ else _] |- _ => destruct b eqn:?
    end; simpl in *; inversion H; subst; simpl.
  all: first
    [ split; reflexivity
    | eexists; split; [reflexivity|]; split; [reflexivity|]; split; [reflexivity|];
      split; [rewrite <- app_assoc; reflexivity|];
      eexists; split; [apply obj_get_set_same|]; simpl; repeat split; assumption ].
Qed.

(** Lines 310-312: when every function is packaged but
    [getTransformedRoutes] reports an error, [build] throws
    [new Error(error.message)] in the state the packaging left. *)
Theorem route_error_fails_build env st w fns s1 lo s2 msg :
  discover env st = (Ok (w, fns), s1) ->
  package_all env (apiDir_of (apiProxyPath env)) fns [] s1 = (Ok lo, s2) ->
  transformRoutes env (defaultRoutesNowConfig (fallbackHtmlPage env)) = inr msg ->
  build env st = (Exn (ExnMsg msg), s2).
Proof.
  intros Hd Hp Ht. unfold build, bind. rewrite Hd. simpl. rewrite Hp, Ht. reflexivity.
Qed.

Lemma fromFsPath_path env p st r st' :
  fromFsPath env p st = (Ok r, st') -> fsPath r = p.
Proof.
  unfold fromFsPath, lstatSync, new_FileFsRef. unfold_M. simpl.
  destruct (fault env p); [discriminate|].
  destruct (find_node env p); [|destruct (is_dir env p)]; simpl; intros H;
    inversion H; reflexivity.
Qed.

Lemma collect_files_entries env ps acc st out st' :
  collect_files env ps acc st = (Ok out, st') ->
  forall k,
    (In k ps -> exists r, obj_get out k = Some (FsRefFile r)
                          /\ fsPath r = path_join (workPath env) (split_slash k))
    /\ (~ In k ps -> obj_get out k = obj_get acc k).
Proof.
  revert acc st. induction ps as [|f ps IH]; intros acc st H k; cbn [collect_files] in H.
  - inversion H; subst. split; [intros []|reflexivity].
  - unfold bind in H.
    destruct (fromFsPath env (path_join (workPath env) (split_slash f)) st) as [[r|e] s1] eqn:Ef;
      [|discriminate].
    apply fromFsPath_path in Ef.
    destruct (IH _ _ H k) as [Hin Hout]. split.
    + intros Hk. destruct (in_dec string_dec k ps) as [Hp|Hp]; [now apply Hin|].
      destruct Hk as [Hk|Hk]; [subst|contradiction].
      exists r. rewrite (Hout Hp). split; [apply obj_get_set_same|exact Ef].
    + intros Hk. rewrite Hout by (intro; apply Hk; now right).
      apply obj_get_set_other. intro; apply Hk; now left.
Qed.

(** Lines 265-274: the files of a function's lambda are exactly the
    entrypoint and the files the tracer lists.  The entrypoint's key holds
    the function's own [FileFsRef].  Every other listed path holds a
    [FileFsRef] at [join(workPath, path)], and no other key is present. *)
Theorem lambda_files_are_traced_files env apiDir funcName ref st n l st' :
  package_function env apiDir (funcName, ref) st = (Ok (n, l), st') ->
  exists fl efl ws s1,
    run_trace env (nft env (fsPath ref)) st = (Ok (fl, efl, ws), s1)
    /\ obj_get (files l) (relative_entrypoint env ref) = Some (FsRefFile ref)
    /\ forall k, k <> relative_entrypoint env ref ->
         (In k (fl ++ efl) -> exists r, obj_get (files l) k = Some (FsRefFile r)
                                /\ fsPath r = path_join (workPath env) (split_slash k))
         /\ (~ In k (fl ++ efl) -> obj_get (files l) k = None).
Proof.
  intros H. unfold package_function, bind in H.
  destruct (run_trace env (nft env (fsPath ref)) st) as [[[[fl efl] ws]|e] s1] eqn:Et;
    [|discriminate].
  destruct (forward_warnings ws s1) as [[u|e] s2]; [|discriminate].
  destruct (collect_files env (fl ++ efl) [] s2) as [[lf|e] s3] eqn:Ec; [|discriminate].
  destruct (lambdaOptions env _) as [mem dur].
  inversion H; subst; clear H. exists fl, efl, ws, s1. split; [reflexivity|]. simpl.
  split; [apply obj_get_set_same|].
  intros k Hk. rewrite obj_get_set_other by (intro; apply Hk; symmetry; assumption).
  destruct (collect_files_entries _ _ _ _ _ _ Ec k) as [Hin Hout].
  split; [exact Hin|]. intros Hn. now rewrite (Hout Hn).
Qed.

(** Discovery of the functions. *)

Lemma In_obj_spread {V} (a b : obj V) k v :
  In (k, v) (obj_spread a b) -> In (k, v) a \/ In (k, v) b.
Proof.
  unfold obj_spread. revert a. induction b as [|[k' v'] b IH]; intros a H; [now left|].
  simpl in H. destruct (IH _ H) as [H1|H1]; [|right; now right].
  destruct (In_obj_set _ _ _ _ _ H1) as [H2|H2]; [now left|right; left; congruence].
Qed.

Lemma glob_nodes_entries_match dir matches ns acc st out st' :
  glob_nodes dir matches ns acc st = (Ok out, st') ->
  (forall k r, In (k, r) acc -> exists rel, k = render rel /\ fsPath r = dir ++ rel
                                            /\ matches rel = true) ->
  forall k r, In (k, r) out -> exists rel, k = render rel /\ fsPath r = dir ++ rel
                                           /\ matches rel = true.
Proof.
  revert acc st. induction ns as [|n ns IH]; intros acc st H Hacc; simpl in H.
  - inversion H; subst; exact Hacc.
  - destruct (strip_prefix dir (node_path n)) as [rel|] eqn:Hs; [|eapply IH; eauto].
    destruct (matches rel) eqn:Hm; [|eapply IH; eauto].
    unfold new_FileFsRef, bind, alloc, ret in H. simpl in H.
    eapply IH; [exact H|]. intros k r Hin.
    destruct (In_obj_set _ _ _ _ _ Hin) as [Hin'|Heq]; [now apply Hacc|].
    inversion Heq; subst. exists rel. split; [reflexivity|]. split; [|exact Hm].
    simpl. now apply strip_prefix_app.
Qed.

Lemma discover_functions env st w fns s1 funcName ref :
  discover env st = (Ok (w, fns), s1) ->
  In (funcName, ref) fns ->
  exists rel, funcName = render rel /\ fsPath ref = apiDistPath env ++ rel /\ rel <> [].
Proof.
  unfold discover, glob, bind. intros H Hin.
  destruct (glob_nodes (webDistPath env) pat_all (fs_nodes env) [] st) as [[w'|e] sa];
    [|discriminate].
  destruct (glob_nodes (apiDistPath env) pat_top_js (fs_nodes env) [] sa) as [[top|e] sb] eqn:Et;
    [|discriminate].
  destruct (glob_nodes (apiDistPath env) pat_nested_js (fs_nodes env) [] sb)
    as [[nested|e] sc] eqn:En; [|discriminate].
  inversion H; subst; clear H.
  destruct (In_obj_spread _ _ _ _ Hin) as [Hi|Hi].
  - destruct (glob_nodes_entries_match _ _ _ _ _ _ _ Et ltac:(intros ? ? [])
                _ _ Hi) as [rel [H1 [H2 H3]]].
    exists rel. repeat split; auto. intro; subst; discriminate.
  - destruct (glob_nodes_entries_match _ _ _ _ _ _ _ En ltac:(intros ? ? [])
                _ _ Hi) as [rel [H1 [H2 H3]]].
    exists rel. repeat split; auto. intro; subst; discriminate.
Qed.

Lemma render_cons x l : l <> [] -> render (x :: l) = append x (append "/" (render l)).
Proof. destruct l; [contradiction|reflexivity]. Qed.

Lemma substring_full t : substring 0 (String.length t) t = t.
Proof. induction t; simpl; congruence. Qed.

Lemma replace_dist_functions F :
  replace_first "/dist/" "/src/" (append "api/dist/functions/" F) = append "api/src/functions/" F.
Proof.
  simpl. now rewrite substring_full.
Qed.

(** Lines 168, 207-210 and 215-220: for every function that discovery finds, the
    relative entrypoint is [api/dist/functions/] followed by its key.  The
    [sourceFile] handed to [getLambdaOptionsFromFunction] is
    [api/src/functions/] followed by the same key. *)
Theorem function_source_file_under_src env st w fns s1 funcName ref :
  forallb seg_norm (workPath env) = true ->
  discover env st = (Ok (w, fns), s1) ->
  In (funcName, ref) fns ->
  relative_entrypoint env ref = append "api/dist/functions/" funcName
  /\ replace_first "/dist/" "/src/" (relative_entrypoint env ref)
     = append "api/src/functions/" funcName.
Proof.
  intros Hw Hd Hin.
  destruct (discover_functions _ _ _ _ _ _ _ Hd Hin) as [rel [Hk [Hp Hne]]].
  assert (Ha : apiDistPath env = workPath env ++ ["api"; "dist"; "functions"]).
  { unfold apiDistPath, path_join. apply normalize_abs_normal.
    rewrite forallb_app, Hw. reflexivity. }
  assert (He : relative_entrypoint env ref = append "api/dist/functions/" funcName).
  { unfold relative_entrypoint. rewrite Hp, Ha, <- app_assoc, path_relative_app.
    simpl app. rewrite render_cons, render_cons, render_cons by (auto; discriminate).
    subst funcName. reflexivity. }
  split; [exact He|]. rewrite He. apply replace_dist_functions.
Qed.

(* ------------------------------------------------------------------ *)
(** ** Concrete runs of the further properties *)

Lemma hasScript_only_string_scripts_witness : hasScript "build" pkg_build_script = true.
Proof.
  apply (proj2 (hasScript_only_string_scripts "build" pkg_build_script (or_intror eq_refl))).
  eexists _, _, _. split; [reflexivity|split; reflexivity].
Defined.

Lemma install_command_choice_witness :
  exists env,
    commands (snd (install_step (pre_env_demo (Some "yarn install") false)
                     [("PATH", "/usr/bin")] ["w"] pre_st_demo))
    = commands pre_st_demo ++ [Exec "yarn install" env ["w"]]
    /\ obj_get env "YARN_NODE_LINKER" = Some "node-modules".
Proof.
  destruct (proj2 (proj2 (install_command_choice (pre_env_demo (Some "yarn install") false)
              [("PATH", "/usr/bin")] ["w"] pre_st_demo
              (fst (install_step (pre_env_demo (Some "yarn install") false)
                      [("PATH", "/usr/bin")] ["w"] pre_st_demo))
              (snd (install_step (pre_env_demo (Some "yarn install") false)
                      [("PATH", "/usr/bin")] ["w"] pre_st_demo))
              ltac:(constructor; [intros []|constructor]) eq_refl))
              "yarn install" eq_refl eq_refl) as (env & Hc & Hy & _).
  exists env. split; [exact Hc|]. rewrite Hy. reflexivity.
Defined.

Lemma build_step_runs_one_command_witness :
  exists c, commands (snd (build_step (pre_env_demo None false) [] pkg_legacy pre_st_demo))
            = commands pre_st_demo ++ [c].
Proof.
  destruct (build_step_runs_one_command (pre_env_demo None false) [] pkg_legacy pre_st_demo
              (fst (build_step (pre_env_demo None false) [] pkg_legacy pre_st_demo))
              (snd (build_step (pre_env_demo None false) [] pkg_legacy pre_st_demo)) eq_refl)
    as [(c & Hc & _)|(_ & _ & _ & _ & (o & Ho & Hd) & _)].
  - exists c. exact Hc.
  - inversion Ho; subst. discriminate Hd.
Defined.

Lemma build_step_default_command_witness :
  exists o dd v, pkg_legacy = JObj o /\ obj_get o "devDependencies" = Some (JObj dd)
    /\ obj_get dd "@redwoodjs/core" = Some v /\ js_truthy v = true
    /\ validRange (pre_env_demo None false) v = true
    /\ intersectsLegacy (pre_env_demo None false) v = true.
Proof.
  apply (proj1 (proj2 (build_step_default_command (pre_env_demo None false) [] pkg_legacy
    pre_st_demo
    (fst (build_step (pre_env_demo None false) [] pkg_legacy pre_st_demo))
    (snd (build_step (pre_env_demo None false) [] pkg_legacy pre_st_demo))
    legacy_cmd [] ["w"] I eq_refl eq_refl eq_refl eq_refl))).
  reflexivity.
Defined.

Lemma prelude_dev_runs_no_build_command_witness :
  exists e, fst (prelude (pre_env_demo None true) pre_st_demo) = Exn e.
Proof.
  exact (proj1 (prelude_dev_runs_no_build_command (pre_env_demo None true) pre_st_demo
    (fst (prelude (pre_env_demo None true) pre_st_demo))
    (snd (prelude (pre_env_demo None true) pre_st_demo)) eq_refl eq_refl)).
Defined.

Lemma prelude_stops_at_failure_witness :
  proc_env (snd (prelude (pre_env_demo None false) pre_st_demo))
  = mirror_vercel_env (proc_env pre_st_demo).
Proof.
  exact (proj1 (prelude_stops_at_failure (pre_env_demo None false) pre_st_demo
    (fst (prelude (pre_env_demo None false) pre_st_demo))
    (snd (prelude (pre_env_demo None false) pre_st_demo)) eq_refl)).
Defined.

Lemma aws_handler_top_level_file_witness :
  getAWSLambdaHandler "graphql.js" "handler" = append (name_of "graphql.js") ".handler".
Proof. exact (aws_handler_top_level_file "graphql.js" "handler" eq_refl). Defined.

Lemma root_api_proxy_unprefixed_witness :
  outputName_of (apiDir_of (Some "/")) "graphql.js" = parse_name "graphql.js".
Proof.
  exact (root_api_proxy_unprefixed "/" "graphql.js" (or_introl eq_refl)
           ltac:(vm_compute; reflexivity)).
Defined.

Lemma readFile_first_read_witness :
  exists f, obj_get (fsCache (snd (readFile env_shared ["w"; "api"; "dist"; "lib"; "db.js"] init_st)))
              (cache_key env_shared ["w"; "api"; "dist"; "lib"; "db.js"]) = Some f.
Proof.
  destruct (readFile_first_read env_shared ["w"; "api"; "dist"; "lib"; "db.js"] init_st
              (Some "module.exports = {}")
              (snd (readFile env_shared ["w"; "api"; "dist"; "lib"; "db.js"] init_st))
              eq_refl ltac:(vm_compute; reflexivity))
    as (n & _ & _ & _ & _ & f & Hf & _).
  exists f. exact Hf.
Defined.

Lemma route_error_fails_build_witness :
  build env_bad_routes init_st
  = (Exn (ExnMsg "Invalid rewrite"), snd (build env_bad_routes init_st)).
Proof.
  eapply route_error_fails_build; cbv; reflexivity.
Defined.

Lemma lambda_files_are_traced_files_witness :
  match fst (package_function env_shared "api"
               ("a.js", mkFileFsRef 1 ["w"; "api"; "dist"; "functions"; "a.js"] 33188 None)
               init_st) with
  | Ok (_, l) =>
      obj_get (files l) "api/dist/functions/a.js"
      = Some (FsRefFile (mkFileFsRef 1 ["w"; "api"; "dist"; "functions"; "a.js"] 33188 None))
  | Exn _ => False
  end.
Proof.
  destruct (package_function env_shared "api"
               ("a.js", mkFileFsRef 1 ["w"; "api"; "dist"; "functions"; "a.js"] 33188 None)
               init_st) as [[[n l]|e] st'] eqn:E; [|vm_compute in E; discriminate].
  destruct (lambda_files_are_traced_files _ _ _ _ _ _ _ _ E) as (_ & _ & _ & _ & _ & He & _).
  exact He.
Defined.

Lemma function_source_file_under_src_witness :
  replace_first "/dist/" "/src/"
    (relative_entrypoint env_shared
       (mkFileFsRef 1 ["w"; "api"; "dist"; "functions"; "a.js"] 33188 None))
  = append "api/src/functions/" "a.js".
Proof.
  refine (proj2 (function_source_file_under_src env_shared init_st
    (match fst (discover env_shared init_st) with Ok (w, _) => w | Exn _ => [] end)
    (match fst (discover env_shared init_st) with Ok (_, f) => f | Exn _ => [] end)
    (snd (discover env_shared init_st)) "a.js" _ eq_refl _ _)).
  - vm_compute. reflexivity.
  - vm_compute. left. reflexivity.
Defined.
